(** * EtherealEngine: view-slot allocation and GPU object picking

    A shallow embedding of

      - [engine/core/graphics/render_pass.cpp]  (namespace [gfx]): the
        process-wide view-id counter behind every [render_pass], and
      - [editor/editor_runtime/editing/picking_system.cpp] (namespace
        [editor]): [picking_system::frame_render], the per-frame tick that
        renders the identity buffer, starts the GPU-to-CPU read-back and
        decodes the staging array into a selection.

    Mutable statics and members are threaded through a state record, calls
    into collaborators (bgfx, the logger, the editing system) are recorded as
    events, and a [return;] out of [frame_render] is an explicit control
    result. *)

From Stdlib Require Import ZArith List Bool Lia String Permutation.
From Stdlib Require Strings.Byte.
Import ListNotations.
Local Open Scope Z_scope.

(** ** Machine integers *)

(** Value of an unsigned [bits]-wide C++ integer after an arithmetic step. *)
Definition wrap (bits : Z) (x : Z) : Z := x mod 2 ^ bits.

Definition wrap16 : Z -> Z := wrap 16.
Definition wrap32 : Z -> Z := wrap 32.

(** A [std::uint8_t] read from the staging array. *)
Definition u8 (b : Byte.byte) : Z := Z.of_N (Byte.to_N b).

(** ** Observable calls *)

(** Calls that leave the two translation units.  Floating point arguments
    (clear depth, matrices, the [/ 255.0f] scaling of a colour id) are not
    recorded; a colour id is recorded by its three integer channels. *)
Inductive event : Type :=
| EvFrame                                              (* gfx::frame() *)
| EvSetViewName (id : Z) (name : string)
| EvSetViewRect (id w h : Z)
| EvSetViewScissor (id w h : Z)
| EvSetViewFrameBuffer (id : Z)
| EvTouch (id : Z)
| EvSetViewClear (id : Z) (color depth stencil : bool) (rgba : Z) (stencil_value : Z)
| EvSetViewTransform (id : Z)
| EvResetView (id : Z)
| EvModelRender (id : Z) (entity_index : Z) (rr gg bb : Z)
| EvLogWarning (msg : string)
| EvBlit (id : Z)
| EvReadTexture
| EvScanBlitData                                       (* the decode loop walks _blit_data *)
| EvSelect (entity_index : Z)                          (* es.select(pickedEntity) *)
| EvUnselect.                                          (* es.unselect() *)

(** ** Program state *)

(** The statics of render_pass.cpp, the members of [picking_system] that
    [frame_render] writes, and the editing system's selected object. *)
Record world : Type := mkWorld {
  s_index : Z;
  s_last_index : Z;
  _reading : Z;
  _start_readback : bool;
  selection : option Z
}.

Definition set_s_index (v : Z) (w : world) : world :=
  mkWorld v (s_last_index w) (_reading w) (_start_readback w) (selection w).
Definition set_s_last_index (v : Z) (w : world) : world :=
  mkWorld (s_index w) v (_reading w) (_start_readback w) (selection w).
Definition set_reading (v : Z) (w : world) : world :=
  mkWorld (s_index w) (s_last_index w) v (_start_readback w) (selection w).
Definition set_start_readback (v : bool) (w : world) : world :=
  mkWorld (s_index w) (s_last_index w) (_reading w) v (selection w).
Definition set_selection (v : option Z) (w : world) : world :=
  mkWorld (s_index w) (s_last_index w) (_reading w) (_start_readback w) v.

(** ** A state / trace / early-return monad *)

Inductive ctl (A : Type) : Type :=
| Normal (a : A)      (* control falls through to the next statement *)
| Returned.           (* a [return;] left the enclosing member function *)
Arguments Normal {A} a.
Arguments Returned {A}.

Definition M (A : Type) : Type := world -> ctl A * world * list event.

Definition ret {A} (a : A) : M A := fun w => (Normal a, w, []).

Definition bind {A B} (m : M A) (f : A -> M B) : M B :=
  fun w =>
    match m w with
    | (Normal a, w1, e1) =>
        match f a w1 with
        | (c, w2, e2) => (c, w2, e1 ++ e2)
        end
    | (Returned, w1, e1) => (Returned, w1, e1)
    end.

Definition return_ {A} : M A := fun w => (Returned, w, []).
Definition emit (e : event) : M unit := fun w => (Normal tt, w, [e]).
Definition gets {A} (f : world -> A) : M A := fun w => (Normal (f w), w, []).
Definition modify (f : world -> world) : M unit := fun w => (Normal tt, f w, []).
Definition when (b : bool) (m : M unit) : M unit := if b then m else ret tt.

Declare Scope monad_scope.
Delimit Scope monad_scope with monad.
Notation "x <- m ;; k" := (bind m (fun x => k))
  (at level 61, m at next level, right associativity) : monad_scope.
Notation "m ;; k" := (bind m (fun _ => k))
  (at level 61, right associativity) : monad_scope.
Local Open Scope monad_scope.

(** [for (auto x : xs) body(x);] *)
Fixpoint for_each {A} (xs : list A) (body : A -> M unit) : M unit :=
  match xs with
  | [] => ret tt
  | x :: xs' => body x ;; for_each xs' body
  end.

Definition final_world {A} (r : ctl A * world * list event) : world := snd (fst r).
Definition events_of {A} (r : ctl A * world * list event) : list event := snd r.
Definition control_of {A} (r : ctl A * world * list event) : ctl A := fst (fst r).

(** ** namespace gfx : render_pass.cpp *)

Module gfx.
Section view_ids.

(** Width in bits of [gfx::view_id]; the typedef lives in render_pass.h. *)
Variable view_id_bits : Z.

(** [gfx::view_id generate_id()] *)
Definition generate_id : M Z :=
  s <- gets s_index ;;
  when (s =? 255) (emit EvFrame ;; modify (set_s_index 0)) ;;
  idx <- gets s_index ;;
  modify (set_s_index (wrap view_id_bits (idx + 1))) ;;
  modify (set_s_last_index idx) ;;
  ret idx.

(** [render_pass::render_pass(const std::string& n)]; the object is its [id]. *)
Definition render_pass (n : string) : M Z :=
  id <- generate_id ;;
  emit (EvSetViewName id n) ;;
  ret id.

(** [render_pass::bind(const frame_buffer* fb)]; [fb] is [None] for a null
    pointer and otherwise carries [fb->get_size()]. *)
Definition bind_fb (id : Z) (fb : option (Z * Z)) : M unit :=
  match fb with
  | None => ret tt
  | Some (width, height) =>
      emit (EvSetViewRect id (wrap16 width) (wrap16 height)) ;;
      emit (EvSetViewScissor id (wrap16 width) (wrap16 height)) ;;
      emit (EvSetViewFrameBuffer id) ;;
      emit (EvTouch id)
  end.

(** [render_pass::clear(flags, rgba, depth, stencil)]; the flag word is kept
    as its three bits. *)
Definition clear (id : Z) (color depth stencil : bool) (rgba : Z) (stencil_value : Z)
  : M unit :=
  emit (EvSetViewClear id color depth stencil rgba stencil_value).

(** [render_pass::set_view_proj] *)
Definition set_view_proj (id : Z) : M unit := emit (EvSetViewTransform id).

(** [render_pass::reset()].  The loop counter is a [std::uint8_t]; the loop
    ends because [s_index] never exceeds 255, and visits 0 .. [s_index] - 1. *)
Definition reset : M unit :=
  s <- gets s_index ;;
  for_each (map Z.of_nat (seq 0 (Z.to_nat s))) (fun i => emit (EvResetView i)) ;;
  modify (set_s_index 0) ;;
  modify (set_s_last_index 0).

(** [render_pass::get_pass()] *)
Definition get_pass : M Z := gets s_last_index.

(** One [generate_id()] call followed by the reading [get_pass()] gives
    right after it: the slot returned, the slot reported, and how many
    frame flushes the call forced. *)
Definition allocate_observed (w : world) : (Z * Z * nat) * world :=
  match generate_id w with
  | (c, w1, ev) =>
      let issued := match c with Normal idx => idx | Returned => -1 end in
      let reported := match get_pass w1 with
                      | (Normal v, _, _) => v
                      | _ => -1
                      end in
      let flushes := List.length (filter (fun e => match e with EvFrame => true | _ => false end) ev) in
      ((issued, reported, flushes), w1)
  end.

(** [n] consecutive calls, oldest first. *)
Fixpoint allocate_calls (n : nat) (w : world) : list (Z * Z * nat) * world :=
  match n with
  | O => ([], w)
  | S n' =>
      let (o, w1) := allocate_observed w in
      let (os, w2) := allocate_calls n' w1 in
      (o :: os, w2)
  end.

End view_ids.
End gfx.

(** ** namespace editor : picking_system.cpp *)

(** [std::map<std::uint32_t, std::uint32_t>]: the pairs in the order a
    range-for visits them, that is by ascending key. *)
Definition std_map : Type := list (Z * Z).

(** [ids.find(k)], [None] for [ids.end()]. *)
Fixpoint map_find (k : Z) (m : std_map) : option Z :=
  match m with
  | [] => None
  | (k', v') :: m' =>
      if k =? k' then Some v' else map_find k m'
  end.

(** [ids[k] = v] *)
Fixpoint map_assign (k v : Z) (m : std_map) : std_map :=
  match m with
  | [] => [(k, v)]
  | (k', v') :: m' =>
      if k =? k' then (k, v) :: m'
      else if k <? k' then (k, v) :: (k', v') :: m'
      else (k', v') :: map_assign k v m'
  end.

(** What the decode hands to the editing system. *)
Inductive SelectionOutcome : Type :=
| Select (object_index : Z)
| Deselect.

Module editor.

(** An entity reached by [ecs.for_each<transform_component, model_component>],
    with the answers of the three tests the lambda makes on it. *)
Record entity : Type := mkEntity {
  entity_index : Z;            (* e.id().index(), a std::uint32_t *)
  model_is_valid : bool;       (* model.is_valid() *)
  has_lod0 : bool;             (* model.get_lod(0) != nullptr *)
  obb_in_pick_frustum : bool   (* math::frustum::test_obb(pick_frustum, bounds, world_transform) *)
}.

(** Everything one call of [frame_render] reads from its collaborators. *)
Record frame_input : Type := mkInput {
  render_frame : Z;                    (* renderer.get_render_frame() *)
  mouse_left_pressed : bool;           (* input.is_mouse_button_pressed(mml::mouse::left) *)
  imguizmo_is_over : bool;             (* imguizmo::is_over() *)
  editor_camera_valid : bool;          (* bool(es.camera) *)
  has_camera_component : bool;         (* editor_camera.has_component<camera_component>() *)
  near_unproject_ok : bool;            (* viewport_to_world on the near plane *)
  far_unproject_ok : bool;             (* viewport_to_world on the far plane *)
  entities : list entity;
  blit_support : bool;                 (* caps->supported & BGFX_CAPS_TEXTURE_BLIT *)
  read_texture_result : Z;             (* value returned by gfx::read_texture *)
  renderer_is_d3d9 : bool;             (* gfx::get_renderer_type() == Direct3D9 *)
  blit_data : list Byte.byte;          (* the bytes of _blit_data at this tick *)
  ecs_valid_index : Z -> bool;         (* ecs.valid_index(i) *)
  ecs_get_valid : Z -> bool            (* bool(ecs.get(ecs.create_id(i))) *)
}.

(** Lines 102-105: the three channels of an entity index. *)
Definition color_id (entity_index : Z) : Z * Z * Z :=
  (Z.land entity_index 0xff,
   Z.land (Z.shiftr entity_index 8) 0xff,
   Z.land (Z.shiftr entity_index 16) 0xff).

(** Line 159: [static_cast<std::uint32_t>(rr + (gg << 8) + (bb << 16))]. *)
Definition hash_key (rr gg bb : Z) : Z :=
  wrap32 (rr + Z.shiftl gg 8 + Z.shiftl bb 16).

(** Lines 142-151: one texel of the staging array as the loop interprets
    it, red and blue exchanged on Direct3D9. *)
Definition texel_rgb (d3d9 : bool) (x0 x1 x2 : Byte.byte) : Z * Z * Z :=
  let rr := u8 x0 in
  let gg := u8 x1 in
  let bb := u8 x2 in
  if d3d9 then (bb, gg, rr) else (rr, gg, bb).

(** Line 154: [0 == (rr | gg | bb)]. *)
Definition is_background (c : Z * Z * Z) : bool :=
  let '(rr, gg, bb) := c in 0 =? Z.lor (Z.lor rr gg) bb.

(** Lines 153-169: the body of the scan loop after a texel was read. *)
Definition count_texel (c : Z * Z * Z) (st : std_map * Z) : std_map * Z :=
  let '(rr, gg, bb) := c in
  let '(ids, max_amount) := st in
  if is_background (rr, gg, bb) then (ids, max_amount)
  else
    let key := hash_key rr gg bb in
    let amount :=
      match map_find key ids with
      | Some second => wrap32 (second + 1)
      | None => 1
      end in
    (map_assign key amount ids,
     if max_amount >? amount then max_amount else amount).

(** Lines 140-170: the pointer walks the array four bytes at a time. *)
Fixpoint scan (d3d9 : bool) (x : list Byte.byte) (st : std_map * Z) : std_map * Z :=
  match x with
  | x0 :: x1 :: x2 :: aa :: x' => scan d3d9 x' (count_texel (texel_rgb d3d9 x0 x1 x2) st)
  | _ => st
  end.

(** Lines 175-189: the first pair, in map order, whose count is [max_amount]. *)
Definition first_with_amount (max_amount : Z) (ids : std_map) : option (Z * Z) :=
  find (fun kv => snd kv =? max_amount) ids.

(** The [id_key] the decode settles on, if the histogram is not empty. *)
Definition winning_key (d3d9 : bool) (data : list Byte.byte) : option Z :=
  let '(ids, max_amount) := scan d3d9 data ([], 0) in
  if max_amount =? 0 then None
  else option_map fst (first_with_amount max_amount ids).

(** Modelled from the spec: [editing_system::select] and
    [editing_system::unselect] are not in the two translation units; they
    are the sink of the selection outcome, storing the selected object or
    clearing it. *)
Definition es_select (object_index : Z) : M unit :=
  emit (EvSelect object_index) ;; modify (set_selection (Some object_index)).
Definition es_unselect : M unit :=
  emit EvUnselect ;; modify (set_selection None).

Section picking.

Variable view_id_bits : Z.

(** [picking_system::tex_id_dim]; its value is given in picking_system.h. *)
Variable tex_id_dim : Z.

(** Lines 83-111: the lambda run on each entity. *)
Definition draw_entity (pass : Z) (e : entity) : M unit :=
  if negb (model_is_valid e) then ret tt
  else if negb (has_lod0 e) then ret tt
  else if negb (obb_in_pick_frustum e) then ret tt
  else
    let '(rr, gg, bb) := color_id (entity_index e) in
    emit (EvModelRender pass (entity_index e) rr gg bb).

(** Lines 33-112: the block run when the left button was pressed. *)
Definition pick_request (inp : frame_input) : M unit :=
  sel <- gets selection ;;
  if imguizmo_is_over inp && (match sel with Some _ => true | None => false end)
  then return_
  else if negb (editor_camera_valid inp) || negb (has_camera_component inp)
  then return_
  else if negb (near_unproject_ok inp) then return_
  else if negb (far_unproject_ok inp) then return_
  else
    modify (set_reading 0) ;;
    modify (set_start_readback true) ;;
    pass <- gfx.render_pass view_id_bits "picking_buffer_fill" ;;
    gfx.bind_fb pass (Some (tex_id_dim, tex_id_dim)) ;;
    gfx.clear pass true true false 0x000000ff 0 ;;
    gfx.set_view_proj pass ;;
    for_each (entities inp) (draw_entity pass).

(** Lines 116-133: blit the identity buffer and start the read. *)
Definition start_readback (inp : frame_input) : M unit :=
  if negb (blit_support inp) then
    emit (EvLogWarning "Texture blitting is not supported. Picking will not work") ;;
    modify (set_start_readback false) ;;
    return_
  else
    pass <- gfx.render_pass view_id_bits "picking_buffer_blit" ;;
    emit (EvBlit pass) ;;
    emit EvReadTexture ;;
    modify (set_reading (read_texture_result inp)) ;;
    modify (set_start_readback false).

(** Lines 137-194: histogram of the staging array and the selection. *)
Definition decode (inp : frame_input) : M unit :=
  modify (set_reading 0) ;;
  emit EvScanBlitData ;;
  let '(ids, max_amount) := scan (renderer_is_d3d9 inp) (blit_data inp) ([], 0) in
  if negb (max_amount =? 0) then
    match first_with_amount max_amount ids with
    | Some kv =>
        let id_key := fst kv in
        when (ecs_valid_index inp id_key)
             (when (ecs_get_valid inp id_key) (es_select id_key))
    | None => ret tt
    end
  else es_unselect.

(** Line 135: [_reading && _reading <= render_frame]. *)
Definition fence_reached (reading render_frame : Z) : bool :=
  negb (reading =? 0) && (reading <=? render_frame).

(** Lines 114-195: the two read-back blocks. *)
Definition readback (inp : frame_input) : M unit :=
  reading <- gets _reading ;;
  start <- gets _start_readback ;;
  when ((reading =? 0) && start) (start_readback inp) ;;
  reading <- gets _reading ;;
  when (fence_reached reading (render_frame inp)) (decode inp).

(** [void picking_system::frame_render(std::chrono::duration<float>)] *)
Definition frame_render (inp : frame_input) : M unit :=
  when (mouse_left_pressed inp) (pick_request inp) ;;
  readback inp.

(** Successive frame ticks, oldest first; the events of all of them. *)
Fixpoint run_frames (inps : list frame_input) (w : world) : world * list event :=
  match inps with
  | [] => (w, [])
  | inp :: rest =>
      let r := frame_render inp w in
      let (w', ev') := run_frames rest (final_world r) in
      (w', events_of r ++ ev')
  end.

End picking.
End editor.

(** ** Vocabulary of the statements *)

(** The allocator as [render_pass::reset()] leaves it. *)
Definition reset_allocator (w : world) : world :=
  final_world (gfx.reset w).

(** What call number [k] (counted from 0) of a run of [generate_id()] on a
    reset allocator is expected to show: slot [k mod 255], reported as last
    issued, after one frame flush exactly when the counter had come to 255. *)
Definition call_report (k : Z) : Z * Z * nat :=
  (k mod 255, k mod 255, if (0 <? k) && (k mod 255 =? 0) then 1%nat else 0%nat).

(** A world at start-up: counters at zero, nothing pending, nothing selected. *)
Definition initial_world : world := mkWorld 0 0 0 false None.

(** The counter [s_index] after [k] calls on a reset allocator. *)
Definition counter_after (k : nat) : Z :=
  match k with
  | O => 0
  | S k' => Z.of_nat k' mod 255 + 1
  end.

(** The slot a call returned. *)
Definition issued_slot (o : Z * Z * nat) : Z := fst (fst o).

(** Line 159 on a colour triple. *)
Definition decode_color (c : Z * Z * Z) : Z :=
  let '(rr, gg, bb) := c in editor.hash_key rr gg bb.

Definition background : Z * Z * Z := (0, 0, 0).

(** The texels of a staging array in scan order, as the loop reads them. *)
Fixpoint texels (d3d9 : bool) (x : list Byte.byte) : list (Z * Z * Z) :=
  match x with
  | x0 :: x1 :: x2 :: aa :: x' => editor.texel_rgb d3d9 x0 x1 x2 :: texels d3d9 x'
  | _ => []
  end.

Definition color_eqb (c1 c2 : Z * Z * Z) : bool :=
  let '(r1, g1, b1) := c1 in
  let '(r2, g2, b2) := c2 in
  (r1 =? r2) && (g1 =? g2) && (b1 =? b2).

(** Number of texels of colour [c]. *)
Definition texel_count (c : Z * Z * Z) (l : list (Z * Z * Z)) : nat :=
  List.length (filter (color_eqb c) l).

(** Number of non-background texels whose key is [k]. *)
Definition key_count (k : Z) (l : list (Z * Z * Z)) : nat :=
  List.length (filter (fun c => negb (editor.is_background c) && (decode_color c =? k)) l).

(** Decides, over the colours present in [l], that [c0] fills strictly more
    texels than any other non-background colour. *)
Definition strict_majorityb (c0 : Z * Z * Z) (l : list (Z * Z * Z)) : bool :=
  (0 <? texel_count c0 l)%nat
  && forallb (fun c => editor.is_background c || color_eqb c c0
                       || (texel_count c l <? texel_count c0 l)%nat) l.

(** A triple of 8-bit channels. *)
Definition byte_color (c : Z * Z * Z) : Prop :=
  let '(rr, gg, bb) := c in 0 <= rr < 256 /\ 0 <= gg < 256 /\ 0 <= bb < 256.

(** A [tex_id_dim] x [tex_id_dim] RGBA8 staging array; the byte count
    [tex_id_dim * tex_id_dim * 4] of the loop bound is an [int]. *)
Definition id_buffer (tex_id_dim : Z) (x : list Byte.byte) : Prop :=
  0 < tex_id_dim /\
  tex_id_dim * tex_id_dim * 4 <= 2147483647 /\
  Z.of_nat (List.length x) = tex_id_dim * tex_id_dim * 4.

(** The selection outcomes among the calls of a tick, oldest first. *)
Fixpoint emitted_outcomes (ev : list event) : list SelectionOutcome :=
  match ev with
  | [] => []
  | EvSelect i :: ev' => Select i :: emitted_outcomes ev'
  | EvUnselect :: ev' => Deselect :: emitted_outcomes ev'
  | _ :: ev' => emitted_outcomes ev'
  end.

(** Keys of a map strictly above [lo] and strictly ascending. *)
Fixpoint keys_above (lo : Z) (m : std_map) : Prop :=
  match m with
  | [] => True
  | (k, _) :: m' => lo < k /\ keys_above k m'
  end.

Definition ascending (m : std_map) : Prop :=
  match m with
  | [] => True
  | (k, _) :: m' => keys_above k m'
  end.

(** The guards of lines 36-60 that a click has to pass, given the object
    currently selected. *)
Definition pick_guards (inp : editor.frame_input) (sel : option Z) : bool :=
  negb (editor.imguizmo_is_over inp && match sel with Some _ => true | None => false end)
  && editor.editor_camera_valid inp && editor.has_camera_component inp
  && editor.near_unproject_ok inp && editor.far_unproject_ok inp.

(** A click that starts a new pick. *)
Definition pick_accepted (inp : editor.frame_input) (sel : option Z) : bool :=
  editor.mouse_left_pressed inp && pick_guards inp sel.

Definition count_events (p : event -> bool) (ev : list event) : nat :=
  List.length (filter p ev).

(** The identity-buffer pass was opened. *)
Definition is_fill_pass (e : event) : bool :=
  match e with
  | EvSetViewName _ n => String.eqb n "picking_buffer_fill"
  | _ => false
  end.
Definition is_blit (e : event) : bool :=
  match e with EvBlit _ => true | _ => false end.
Definition is_warning (e : event) : bool :=
  match e with EvLogWarning _ => true | _ => false end.
Definition is_scan (e : event) : bool :=
  match e with EvScanBlitData => true | _ => false end.

(** Nothing of the read-back machinery happened: no blit, no warning, no
    scan of the staging array, no outcome. *)
Definition no_readback_events (ev : list event) : Prop :=
  count_events is_blit ev = 0%nat /\ count_events is_warning ev = 0%nat
  /\ count_events is_scan ev = 0%nat /\ emitted_outcomes ev = [].

(** The draw calls of the entities that pass the three tests of the lambda. *)
Definition draw_events (pass : Z) (es : list editor.entity) : list event :=
  flat_map (fun e =>
              if editor.model_is_valid e && editor.has_lod0 e && editor.obb_in_pick_frustum e
              then let '(rr, gg, bb) := editor.color_id (editor.entity_index e) in
                   [EvModelRender pass (editor.entity_index e) rr gg bb]
              else []) es.

(** Number of clicks of a run that pass the guards under selection [sel]. *)
Definition accepted_clicks (inps : list editor.frame_input) (sel : option Z) : nat :=
  List.length (filter (fun inp => pick_accepted inp sel) inps).

(** The read-back state of the spec in terms of the two members. *)
Inductive ReadbackState : Type :=
| Idle
| BlitRequested
| AwaitingFence (frame_number : Z).

Definition readback_state (w : world) : ReadbackState :=
  if negb (_reading w =? 0) then AwaitingFence (_reading w)
  else if _start_readback w then BlitRequested
  else Idle.

(** A tick at frame 10 with a click that passes every guard, one entity in
    the pick frustum, blit supported, the read due at frame 13. *)
Definition click_at_frame_10 : editor.frame_input :=
  editor.mkInput 10 true false true true true true [editor.mkEntity 5 true true true]
    true 13 false [Byte.x00; Byte.x00; Byte.x00; Byte.xff] (fun _ => true) (fun _ => true).

(** A first pick is waiting for frame 11. *)
Definition awaiting_frame_11 : world := mkWorld 2 1 11 false None.

(** A tick at frame 15 with an accepted click, the read due at frame 17. *)
Definition click_at_frame_15 : editor.frame_input :=
  editor.mkInput 15 true false true true true true [] true 17 true
    [Byte.x00; Byte.x00; Byte.x00; Byte.xff] (fun _ => true) (fun _ => true).

(** A tick at frame 15 without a click. *)
Definition quiet_at_frame_15 : editor.frame_input :=
  editor.mkInput 15 false false true true true true [] true 17 true
    [Byte.x00; Byte.x00; Byte.x00; Byte.xff] (fun _ => true) (fun _ => true).

(** A first pick is waiting for frame 20, entity 5 selected. *)
Definition awaiting_frame_20 : world := mkWorld 4 3 20 false (Some 5).

(** A tick with an accepted click on a platform without texture blit. *)
Definition click_without_blit (frame : Z) : editor.frame_input :=
  editor.mkInput frame true false true true true true [editor.mkEntity 5 true true true]
    false 0 false [Byte.x00; Byte.x00; Byte.x00; Byte.xff] (fun _ => true) (fun _ => true).

(** A tick with an accepted click whose read could not be scheduled. *)
Definition click_read_unscheduled : editor.frame_input :=
  editor.mkInput 10 true false true true true true [editor.mkEntity 5 true true true]
    true 0 false [Byte.x05; Byte.x00; Byte.x00; Byte.xff] (fun _ => true) (fun _ => true).

(** One red texel of key 1 read back while no entity index is valid, with
    entity 7 selected from an earlier pick. *)
Definition stale_pick_input : editor.frame_input :=
  editor.mkInput 12 false false true true true true [] true 0 false
    [Byte.x01; Byte.x00; Byte.x00; Byte.xff] (fun _ => false) (fun _ => false).

Definition entity_7_selected : world := mkWorld 2 1 12 false (Some 7).

(** A 2 x 2 staging array: two texels of entity 5, one of entity 9, one of
    background; every entity index alive. *)
Definition majority_input : editor.frame_input :=
  editor.mkInput 12 false false true true true true [] true 0 false
    [Byte.x09; Byte.x00; Byte.x00; Byte.xff;  Byte.x05; Byte.x00; Byte.x00; Byte.xff;
     Byte.x00; Byte.x00; Byte.x00; Byte.xff;  Byte.x05; Byte.x00; Byte.x00; Byte.xff]
    (fun _ => true) (fun _ => true).

(** A 2 x 2 staging array on Direct3D9 (bytes in B, G, R, A order): entities
    9 and 5 with two texels each. *)
Definition tied_data : list Byte.byte :=
  [Byte.x00; Byte.x00; Byte.x09; Byte.xff;  Byte.x00; Byte.x00; Byte.x05; Byte.xff;
   Byte.x00; Byte.x00; Byte.x05; Byte.xff;  Byte.x00; Byte.x00; Byte.x09; Byte.xff].

(** A 1 x 1 staging array holding the clear colour. *)
Definition black_input : editor.frame_input :=
  editor.mkInput 12 false false true true true true [] true 0 false
    [Byte.x00; Byte.x00; Byte.x00; Byte.xff] (fun _ => true) (fun _ => true).

(** What the scan loop maintains after the texels [l]: the map is in key
    order and holds exactly the keys seen, each with its number of texels,
    and [max_amount] is the largest of these numbers. *)
Definition hist_ok (l : list (Z * Z * Z)) (st : std_map * Z) : Prop :=
  ascending (fst st)
  /\ (forall k, map_find k (fst st)
                = if (key_count k l =? 0)%nat then None else Some (Z.of_nat (key_count k l)))
  /\ (forall k, Z.of_nat (key_count k l) <= snd st)
  /\ (snd st = 0 \/ exists k, Z.of_nat (key_count k l) = snd st).

(** ** Vocabulary of the further properties *)

(** The slot [get_pass()] reported after a call, and the flushes it forced. *)
Definition reported_slot (o : Z * Z * nat) : Z := snd (fst o).
Definition flushes_of (o : Z * Z * nat) : nat := snd o.

(** The slot the next [generate_id()] will return. *)
Definition next_slot (w : world) : Z :=
  if s_index w =? 255 then 0 else s_index w.

(** The allocator after [n] calls. *)
Definition after_calls (view_id_bits : Z) (n : nat) (w : world) : world :=
  snd (gfx.allocate_calls view_id_bits n w).

(** The report of call number [k], counted from 0, of a run. *)
Definition nth_call (k : nat) (rs : list (Z * Z * nat)) : Z * Z * nat :=
  nth k rs (0, 0, 0%nat).

(** A staging array with the bytes 0 and 2 of every texel exchanged. *)
Fixpoint swap_rb (x : list Byte.byte) : list Byte.byte :=
  match x with
  | x0 :: x1 :: x2 :: aa :: x' => x2 :: x1 :: x0 :: aa :: swap_rb x'
  | _ => x
  end.

(** A staging array with the alpha byte of every texel overwritten by [a]. *)
Fixpoint set_alpha (a : Byte.byte) (x : list Byte.byte) : list Byte.byte :=
  match x with
  | x0 :: x1 :: x2 :: aa :: x' => x0 :: x1 :: x2 :: a :: set_alpha a x'
  | _ => x
  end.

(** 2 x 2 staging arrays with the same texels in a different order. *)
Definition shuffled_a : list Byte.byte :=
  [Byte.x09; Byte.x00; Byte.x00; Byte.xff;  Byte.x05; Byte.x01; Byte.x00; Byte.xff;
   Byte.x00; Byte.x00; Byte.x00; Byte.xff;  Byte.x05; Byte.x01; Byte.x00; Byte.xff].
Definition shuffled_b : list Byte.byte :=
  [Byte.x05; Byte.x01; Byte.x00; Byte.x00;  Byte.x00; Byte.x00; Byte.x00; Byte.x10;
   Byte.x05; Byte.x01; Byte.x00; Byte.x20;  Byte.x09; Byte.x00; Byte.x00; Byte.x30].

(** 1 for [true], 0 for [false]. *)
Definition b2n (b : bool) : nat := if b then 1%nat else 0%nat.

(** A tick without a click while the recorded fence [f] is still ahead. *)
Definition quiet_before (f : Z) (inp : editor.frame_input) : Prop :=
  editor.mouse_left_pressed inp = false /\ editor.render_frame inp < f.

(** A tick at frame 9 with a click over the gizmo; with an object selected
    the click is rejected. *)
Definition click_over_gizmo : editor.frame_input :=
  editor.mkInput 9 true true true true true true [editor.mkEntity 5 true true true]
    true 11 false [Byte.x05; Byte.x00; Byte.x00; Byte.xff] (fun _ => true) (fun _ => true).

(** A tick at frame [frame] without a click, the staging array holding one
    texel of entity 5. *)
Definition quiet_tick (frame : Z) : editor.frame_input :=
  editor.mkInput frame false false true true true true [] true 0 false
    [Byte.x05; Byte.x00; Byte.x00; Byte.xff] (fun _ => true) (fun _ => true).

(** The allocator is about to hand out its last slot. *)
Definition last_slot_next : world := mkWorld 254 253 0 false None.

(** The calls of the identity-buffer pass on view [id], and of the blit
    pass on view [id], after the pass got its slot. *)
Definition fill_pass_calls (tex_id_dim id : Z) (es : list editor.entity) : list event :=
  [EvSetViewName id "picking_buffer_fill";
   EvSetViewRect id (wrap16 tex_id_dim) (wrap16 tex_id_dim);
   EvSetViewScissor id (wrap16 tex_id_dim) (wrap16 tex_id_dim);
   EvSetViewFrameBuffer id;
   EvTouch id;
   EvSetViewClear id true true false 0x000000ff 0;
   EvSetViewTransform id]
  ++ draw_events id es.

Definition blit_pass_calls (id : Z) : list event :=
  [EvSetViewName id "picking_buffer_blit"; EvBlit id; EvReadTexture].

(** The frame flush a [generate_id()] call forces in state [w]. *)
Definition flush_calls (w : world) : list event :=
  if s_index w =? 255 then [EvFrame] else [].

(** A tick at frame 20 without a click whose staging array is that of
    [majority_input]. *)
Definition due_at_frame_20 : editor.frame_input :=
  editor.mkInput 20 false false true true true true [] true 0 false
    (editor.blit_data majority_input) (fun _ => true) (fun _ => true).

(** * Theorems *)

(** ** The view-slot allocator *)

Lemma for_each_emit {A} (f : A -> event) (xs : list A) (w : world) :
  for_each xs (fun x => emit (f x)) w = (Normal tt, w, map f xs).
Proof.
  induction xs as [|x xs IH]; [reflexivity|].
  cbn [for_each map]. unfold bind at 1. cbn. now rewrite IH.
Qed.

Section allocator_facts.

Variable view_id_bits : Z.
Hypothesis view_id_wide : 8 <= view_id_bits.

Lemma wrap_small (x : Z) : 0 <= x < 256 -> wrap view_id_bits x = x.
Proof.
  intros Hx. unfold wrap. apply Z.mod_small.
  assert (2 ^ 8 <= 2 ^ view_id_bits) by (apply Z.pow_le_mono_r; lia).
  change (2 ^ 8) with 256 in *. lia.
Qed.

(** [generate_id()] in closed form. *)
Lemma generate_id_eq (w : world) :
  gfx.generate_id view_id_bits w
  = if s_index w =? 255
    then (Normal 0,
          set_s_last_index 0 (set_s_index (wrap view_id_bits (0 + 1)) (set_s_index 0 w)),
          [EvFrame])
    else (Normal (s_index w),
          set_s_last_index (s_index w) (set_s_index (wrap view_id_bits (s_index w + 1)) w),
          []).
Proof.
  cbv [gfx.generate_id bind gets when modify emit ret].
  destruct (s_index w =? 255); reflexivity.
Qed.

(** The counter stays within the range the [std::uint8_t] loop of
    [render_pass::reset()] can reach. *)
Lemma generate_id_counter_range (w : world) :
  0 <= s_index w <= 255 ->
  1 <= s_index (final_world (gfx.generate_id view_id_bits w)) <= 255.
Proof.
  intros Hs. rewrite generate_id_eq. destruct w as [si sl r sr sel].
  cbn [s_index] in *.
  destruct (si =? 255) eqn:E; unfold final_world;
    cbn [fst snd set_s_last_index set_s_index s_index].
  - rewrite wrap_small by lia. lia.
  - apply Z.eqb_neq in E. rewrite wrap_small by lia. lia.
Qed.

Lemma succ_mod_255 (k : Z) :
  0 <= k -> (k + 1) mod 255 = if k mod 255 =? 254 then 0 else k mod 255 + 1.
Proof.
  intros Hk.
  pose proof (Z.mod_pos_bound k 255 ltac:(lia)) as Hb.
  pose proof (Z.div_mod k 255 ltac:(lia)) as Hd.
  destruct (k mod 255 =? 254) eqn:E.
  - apply Z.eqb_eq in E.
    replace (k + 1) with (0 + (k / 255 + 1) * 255) by lia.
    now rewrite Z.mod_add by lia.
  - apply Z.eqb_neq in E.
    replace (k + 1) with (k mod 255 + 1 + (k / 255) * 255) by lia.
    rewrite Z.mod_add by lia. apply Z.mod_small. lia.
Qed.

Lemma allocate_observed_step (k : nat) (w : world) :
  s_index w = counter_after k ->
  exists w', gfx.allocate_observed view_id_bits w = (call_report (Z.of_nat k), w')
             /\ s_index w' = counter_after (S k).
Proof.
  intros Hs.
  unfold gfx.allocate_observed. rewrite generate_id_eq.
  unfold call_report.
  destruct k as [|k].
  - cbv [counter_after] in Hs. rewrite Hs.
    change (0 =? 255) with false. cbv iota.
    eexists; split; [reflexivity|].
    cbv [set_s_last_index set_s_index s_index]. rewrite wrap_small by lia. reflexivity.
  - cbv [counter_after] in Hs |- *.
    pose proof (Z.mod_pos_bound (Z.of_nat k) 255 ltac:(lia)) as Hb.
    rewrite Nat2Z.inj_succ. unfold Z.succ.
    rewrite (succ_mod_255 (Z.of_nat k)) by lia.
    replace (0 <? Z.of_nat k + 1) with true by (symmetry; apply Z.ltb_lt; lia).
    rewrite Hs.
    destruct (Z.of_nat k mod 255 =? 254) eqn:E.
    + apply Z.eqb_eq in E. rewrite E. change (254 + 1 =? 255) with true.
      cbv iota. eexists; split; [reflexivity|].
      cbv [set_s_last_index set_s_index s_index]. rewrite wrap_small by lia. reflexivity.
    + apply Z.eqb_neq in E.
      replace (Z.of_nat k mod 255 + 1 =? 255) with false by (symmetry; apply Z.eqb_neq; lia).
      replace (Z.of_nat k mod 255 + 1 =? 0) with false by (symmetry; apply Z.eqb_neq; lia).
      cbv iota. eexists; split; [reflexivity|].
      cbv [set_s_last_index set_s_index s_index]. rewrite wrap_small by lia. reflexivity.
Qed.

Lemma allocate_calls_from (n k : nat) (w : world) :
  s_index w = counter_after k ->
  fst (gfx.allocate_calls view_id_bits n w)
  = map (fun j => call_report (Z.of_nat j)) (seq k n).
Proof.
  revert k w. induction n as [|n IH]; intros k w Hs; [reflexivity|].
  destruct (allocate_observed_step k w Hs) as (w' & Hobs & Hs').
  cbn [gfx.allocate_calls seq map]. rewrite Hobs.
  specialize (IH (S k) w' Hs').
  destruct (gfx.allocate_calls view_id_bits n w') as [os w2].
  cbn [fst] in *. now rewrite IH.
Qed.

(** C2 (amended): on a freshly reset allocator, call number [k] (from 0) of
    any run of [generate_id()] returns slot [k mod 255], [get_pass()] right
    after it reports that same slot, and the call forces one frame flush
    exactly when [k] is a positive multiple of 255.  So 255 calls give
    0..254, and the 256th call flushes once and gives slot 0 again; slot
    255 is never issued.  The allocator reset is in any state the counter
    can reach, 0 .. 255. *)
Theorem generate_id_cycles_through_255_slots (n : nat) (w : world) :
  0 <= s_index w <= 255 ->
  fst (gfx.allocate_calls view_id_bits n (reset_allocator w))
  = map (fun k => call_report (Z.of_nat k)) (seq 0 n).
Proof.
  intros _. apply allocate_calls_from.
  unfold reset_allocator, gfx.reset, final_world, bind, gets, modify.
  rewrite for_each_emit. reflexivity.
Qed.

End allocator_facts.

(** C2 at a 16-bit [view_id], 256 calls after resetting an allocator
    that had already issued seven slots. *)
Lemma generate_id_cycles_witness :
  8 <= 16 /\ 0 <= s_index (mkWorld 7 6 0 false None) <= 255 /\
  fst (gfx.allocate_calls 16 256 (reset_allocator (mkWorld 7 6 0 false None)))
  = map (fun k => call_report (Z.of_nat k)) (seq 0 256).
Proof.
  split; [lia|]. split; [cbn; lia|].
  apply (generate_id_cycles_through_255_slots 16); cbn; lia.
Defined.

(** C2, as stated, fails: the slots of 256 consecutive calls are not 0..255;
    the 256th call already returns slot 0. *)
Lemma slots_0_to_255_in_order_fails :
  ~ (map issued_slot (fst (gfx.allocate_calls 16 256 (reset_allocator initial_world)))
     = map Z.of_nat (seq 0 256)).
Proof.
  intro H. apply (f_equal (fun l => nth 255 l 0)) in H.
  vm_compute in H. discriminate H.
Qed.

(** ** The colour encoding of an entity index *)

Lemma land_0xff (x : Z) : Z.land x 0xff = x mod 256.
Proof. change 0xff with (Z.ones 8). now rewrite Z.land_ones by lia. Qed.

Lemma hash_key_bytes (rr gg bb : Z) :
  0 <= rr < 256 -> 0 <= gg < 256 -> 0 <= bb < 256 ->
  editor.hash_key rr gg bb = rr + 256 * gg + 65536 * bb.
Proof.
  intros Hr Hg Hb. unfold editor.hash_key, wrap32, wrap.
  rewrite !Z.shiftl_mul_pow2 by lia.
  change (2 ^ 8) with 256. change (2 ^ 16) with 65536. change (2 ^ 32) with 4294967296.
  rewrite Z.mod_small; lia.
Qed.

Lemma color_id_channels (i : Z) :
  editor.color_id i = (i mod 256, (i / 256) mod 256, (i / 65536) mod 256).
Proof.
  unfold editor.color_id. rewrite !land_0xff, !Z.shiftr_div_pow2 by lia.
  reflexivity.
Qed.

Lemma decode_color_id (i : Z) : 0 <= i < 2 ^ 24 -> decode_color (editor.color_id i) = i.
Proof.
  intros Hi. change (2 ^ 24) with 16777216 in Hi.
  rewrite color_id_channels. unfold decode_color.
  rewrite hash_key_bytes by (apply Z.mod_pos_bound; lia).
  pose proof (Z.div_mod i 256 ltac:(lia)).
  pose proof (Z.div_mod (i / 256) 256 ltac:(lia)).
  assert (i / 65536 = i / 256 / 256) as -> by (rewrite Z.div_div by lia; reflexivity).
  assert (0 <= i / 256 / 256 < 256).
  { split; [apply Z.div_pos; [apply Z.div_pos|]; lia|].
    apply Z.div_lt_upper_bound; [lia|]. apply Z.div_lt_upper_bound; lia. }
  rewrite (Z.mod_small (i / 256 / 256)) by lia. lia.
Qed.

Lemma color_id_decode (rr gg bb : Z) :
  0 <= rr < 256 -> 0 <= gg < 256 -> 0 <= bb < 256 ->
  editor.color_id (decode_color (rr, gg, bb)) = (rr, gg, bb).
Proof.
  intros Hr Hg Hb. unfold decode_color. rewrite hash_key_bytes by lia.
  rewrite color_id_channels.
  assert (H1 : (rr + 256 * gg + 65536 * bb) mod 256 = rr).
  { replace (rr + 256 * gg + 65536 * bb) with (rr + (gg + 256 * bb) * 256) by lia.
    rewrite Z.mod_add by lia. apply Z.mod_small; lia. }
  assert (H2 : (rr + 256 * gg + 65536 * bb) / 256 = gg + 256 * bb).
  { replace (rr + 256 * gg + 65536 * bb) with (rr + (gg + 256 * bb) * 256) by lia.
    rewrite Z.div_add by lia. rewrite Z.div_small; lia. }
  assert (H3 : (rr + 256 * gg + 65536 * bb) / 65536 = bb).
  { replace (rr + 256 * gg + 65536 * bb) with (rr + 256 * gg + bb * 65536) by lia.
    rewrite Z.div_add by lia. rewrite Z.div_small; lia. }
  rewrite H1, H2, H3.
  replace (gg + 256 * bb) with (gg + bb * 256) by lia.
  rewrite Z.mod_add by lia. rewrite !Z.mod_small by lia. reflexivity.
Qed.

(** C3 (amended): decoding the colour of any index below 2^24 gives the index
    back, the colour is the black triple exactly for index 0, and every
    non-black byte triple is the colour of the index in [1, 2^24 - 1] it
    decodes to; the encoding is a bijection between [1, 2^24 - 1] and the
    non-black triples. *)
Theorem color_id_bijection (i rr gg bb : Z) :
  0 <= i < 2 ^ 24 ->
  0 <= rr < 256 -> 0 <= gg < 256 -> 0 <= bb < 256 ->
  (rr, gg, bb) <> background ->
  decode_color (editor.color_id i) = i
  /\ (editor.color_id i = background <-> i = 0)
  /\ 1 <= decode_color (rr, gg, bb) < 2 ^ 24
  /\ editor.color_id (decode_color (rr, gg, bb)) = (rr, gg, bb).
Proof.
  intros Hi Hr Hg Hb Hnb. split; [now apply decode_color_id|].
  split.
  - split; intros H.
    + rewrite <- (decode_color_id i Hi), H. reflexivity.
    + subst i. reflexivity.
  - split; [|now apply color_id_decode].
    unfold decode_color. rewrite hash_key_bytes by lia.
    change (2 ^ 24) with 16777216.
    assert (rr <> 0 \/ gg <> 0 \/ bb <> 0).
    { destruct (Z.eq_dec rr 0), (Z.eq_dec gg 0), (Z.eq_dec bb 0); subst; auto. }
    lia.
Qed.

Lemma color_id_bijection_witness :
  decode_color (editor.color_id 70000) = 70000
  /\ (editor.color_id 70000 = background <-> 70000 = 0)
  /\ 1 <= decode_color (1, 2, 3) < 2 ^ 24
  /\ editor.color_id (decode_color (1, 2, 3)) = (1, 2, 3).
Proof.
  apply (color_id_bijection 70000 1 2 3); try (vm_compute; split; congruence).
  discriminate.
Defined.

(** C3, as stated, fails at index 0, whose colour is the reserved black
    triple. *)
Lemma color_id_of_0_is_background :
  ~ (forall i, 0 <= i <= 2 ^ 24 - 1 ->
       decode_color (editor.color_id i) = i /\ editor.color_id i <> background).
Proof.
  intros H. destruct (H 0 ltac:(lia)) as [_ Hnb]. apply Hnb. reflexivity.
Qed.

(** ** The histogram of the staging array *)

(** Induction following the pointer of the scan loop. *)
Lemma four_bytes_ind (P : list Byte.byte -> Prop) :
  (forall x, (List.length x < 4)%nat -> P x) ->
  (forall x0 x1 x2 aa x', P x' -> P (x0 :: x1 :: x2 :: aa :: x')) ->
  forall x, P x.
Proof.
  intros Hshort Hstep x.
  assert (H : forall n x, (List.length x <= n)%nat -> P x).
  { induction n as [|n IH]; intros y Hy.
    - apply Hshort. lia.
    - destruct y as [|x0 [|x1 [|x2 [|aa x']]]]; try (apply Hshort; cbn; lia).
      apply Hstep, IH. cbn in Hy. lia. }
  apply (H (List.length x)). lia.
Qed.

Ltac short_buffer x H :=
  destruct x as [|? [|? [|? [|? ?]]]]; [..|cbn in H; lia].

Lemma scan_texels (d3d9 : bool) (x : list Byte.byte) (st : std_map * Z) :
  editor.scan d3d9 x st
  = fold_left (fun st c => editor.count_texel c st) (texels d3d9 x) st.
Proof.
  revert st. induction x as [x Hx|x0 x1 x2 aa x' IH] using four_bytes_ind; intros st.
  - short_buffer x Hx; reflexivity.
  - cbn [editor.scan texels fold_left]. apply IH.
Qed.

Lemma u8_bounds (b : Byte.byte) : 0 <= u8 b < 256.
Proof.
  unfold u8. pose proof (Byte.to_N_bounded b). lia.
Qed.

Lemma texels_byte_color (d3d9 : bool) (x : list Byte.byte) :
  Forall byte_color (texels d3d9 x).
Proof.
  induction x as [x Hx|x0 x1 x2 aa x' IH] using four_bytes_ind.
  - short_buffer x Hx; constructor.
  - cbn [texels]. constructor; [|exact IH].
    unfold editor.texel_rgb, byte_color.
    pose proof (u8_bounds x0). pose proof (u8_bounds x1). pose proof (u8_bounds x2).
    destruct d3d9; lia.
Qed.

Lemma texels_length (d3d9 : bool) (x : list Byte.byte) :
  (4 * List.length (texels d3d9 x) <= List.length x)%nat.
Proof.
  induction x as [x Hx|x0 x1 x2 aa x' IH] using four_bytes_ind.
  - short_buffer x Hx; cbn; lia.
  - cbn [texels List.length]. lia.
Qed.

(** *** [std::map] as its ascending sequence of pairs *)

Lemma map_find_assign_same (k v : Z) (m : std_map) :
  map_find k (map_assign k v m) = Some v.
Proof.
  induction m as [|[k' v'] m IH]; cbn.
  - now rewrite Z.eqb_refl.
  - destruct (k =? k') eqn:E; cbn; [now rewrite Z.eqb_refl|].
    destruct (k <? k'); cbn; [now rewrite Z.eqb_refl|].
    now rewrite E.
Qed.

Lemma map_find_assign_other (k k' v : Z) (m : std_map) :
  k' <> k -> map_find k' (map_assign k v m) = map_find k' m.
Proof.
  intros Hne. apply Z.eqb_neq in Hne.
  induction m as [|[k1 v1] m IH]; cbn.
  - now rewrite Hne.
  - destruct (k =? k1) eqn:E; cbn.
    + apply Z.eqb_eq in E. subst k1. now rewrite Hne.
    + destruct (k <? k1); cbn; [now rewrite Hne|].
      now rewrite IH.
Qed.

Lemma keys_above_weaken (lo lo' : Z) (m : std_map) :
  lo' <= lo -> keys_above lo m -> keys_above lo' m.
Proof.
  destruct m as [|[k v] m]; cbn; [trivial|]. intros ? [? ?]. split; [lia|assumption].
Qed.

Lemma keys_above_assign (lo k v : Z) (m : std_map) :
  lo < k -> keys_above lo m -> keys_above lo (map_assign k v m).
Proof.
  revert lo. induction m as [|[k1 v1] m IH]; intros lo Hlo Hm; cbn in *.
  - auto.
  - destruct Hm as [Hk1 Hm].
    destruct (k =? k1) eqn:E; [apply Z.eqb_eq in E; subst k1; cbn; auto|].
    apply Z.eqb_neq in E.
    destruct (k <? k1) eqn:L; cbn.
    + apply Z.ltb_lt in L. auto.
    + apply Z.ltb_ge in L. split; [assumption|]. apply IH; [lia|assumption].
Qed.

Lemma ascending_assign (k v : Z) (m : std_map) :
  ascending m -> ascending (map_assign k v m).
Proof.
  destruct m as [|[k1 v1] m]; cbn; [trivial|]. intros Hm.
  destruct (k =? k1) eqn:E; [apply Z.eqb_eq in E; subst k1; exact Hm|].
  apply Z.eqb_neq in E.
  destruct (k <? k1) eqn:L; cbn.
  - apply Z.ltb_lt in L. auto.
  - apply Z.ltb_ge in L. apply keys_above_assign; [lia|assumption].
Qed.

Lemma keys_above_In (lo k v : Z) (m : std_map) :
  keys_above lo m -> In (k, v) m -> lo < k.
Proof.
  revert lo. induction m as [|[k1 v1] m IH]; intros lo Hm Hin; cbn in *; [contradiction|].
  destruct Hm as [Hk1 Hm]. destruct Hin as [Heq|Hin].
  - injection Heq as -> ->. assumption.
  - specialize (IH k1 Hm Hin). lia.
Qed.

Lemma map_find_In (k v : Z) (m : std_map) :
  map_find k m = Some v -> In (k, v) m.
Proof.
  induction m as [|[k1 v1] m IH]; cbn; [discriminate|].
  destruct (k =? k1) eqn:E.
  - apply Z.eqb_eq in E. subst k1. intros [= ->]. now left.
  - intros H. right. auto.
Qed.

Lemma ascending_tail (kv : Z * Z) (m : std_map) : ascending (kv :: m) -> ascending m.
Proof.
  destruct kv as [k v]. destruct m as [|[k1 v1] m]; cbn; [trivial|]. tauto.
Qed.

Lemma In_map_find (k v : Z) (m : std_map) :
  ascending m -> In (k, v) m -> map_find k m = Some v.
Proof.
  induction m as [|[k1 v1] m IH]; intros Hm Hin; [contradiction|].
  cbn. destruct Hin as [Heq|Hin].
  - injection Heq as -> ->. now rewrite Z.eqb_refl.
  - pose proof (ascending_tail _ _ Hm) as Hm'.
    cbn in Hm. pose proof (keys_above_In _ _ _ _ Hm Hin) as Hlt.
    replace (k =? k1) with false by (symmetry; apply Z.eqb_neq; lia).
    now apply IH.
Qed.

(** The range-for of lines 175-189 stops at the least key among the pairs
    whose count is [a]. *)
Lemma first_with_amount_least (a : Z) (m : std_map) (kv : Z * Z) :
  ascending m ->
  editor.first_with_amount a m = Some kv ->
  snd kv = a /\ In kv m /\ forall k', In (k', a) m -> fst kv <= k'.
Proof.
  unfold editor.first_with_amount.
  induction m as [|[k1 v1] m IH]; intros Hm Hf; [discriminate|].
  pose proof (ascending_tail _ _ Hm) as Hm'. cbn in *.
  destruct (v1 =? a) eqn:E.
  - injection Hf as <-. apply Z.eqb_eq in E. cbn. repeat split; auto.
    intros k' [Heq|Hin]; [injection Heq as ->; lia|].
    pose proof (keys_above_In _ _ _ _ Hm Hin). lia.
  - destruct (IH Hm' Hf) as (H1 & H2 & H3). repeat split; auto.
    intros k' [Heq|Hin]; [|auto].
    injection Heq as -> ->. rewrite Z.eqb_refl in E. discriminate.
Qed.

Lemma first_with_amount_found (a k : Z) (m : std_map) :
  In (k, a) m -> exists kv, editor.first_with_amount a m = Some kv.
Proof.
  unfold editor.first_with_amount.
  induction m as [|[k1 v1] m IH]; intros Hin; cbn in *; [contradiction|].
  destruct (v1 =? a) eqn:E; [eauto|].
  destruct Hin as [Heq|Hin]; [|auto].
  injection Heq as -> ->. rewrite Z.eqb_refl in E. discriminate.
Qed.

(** *** The scan loop *)

Lemma key_count_snoc (k : Z) (l : list (Z * Z * Z)) (c : Z * Z * Z) :
  key_count k (l ++ [c])
  = (key_count k l
     + if negb (editor.is_background c) && (decode_color c =? k)%Z then 1 else 0)%nat.
Proof.
  unfold key_count. rewrite filter_app, length_app. cbn [filter].
  destruct (negb (editor.is_background c) && (decode_color c =? k)); reflexivity.
Qed.

Lemma key_count_le_length (k : Z) (l : list (Z * Z * Z)) :
  (key_count k l <= List.length l)%nat.
Proof. unfold key_count. apply filter_length_le. Qed.

Lemma hist_ok_step (l : list (Z * Z * Z)) (c : Z * Z * Z) (st : std_map * Z) :
  Z.of_nat (List.length l) < 2 ^ 32 - 1 ->
  hist_ok l st -> hist_ok (l ++ [c]) (editor.count_texel c st).
Proof.
  intros Hlen (Hasc & Hfind & Hmax & Hwit).
  destruct st as [ids max_amount]. destruct c as [[rr gg] bb].
  cbn [fst snd] in *. unfold editor.count_texel.
  destruct (editor.is_background (rr, gg, bb)) eqn:Hbg.
  - (* a background texel changes nothing *)
    assert (Hsame : forall k, key_count k (l ++ [(rr, gg, bb)]) = key_count k l).
    { intros k. rewrite key_count_snoc, Hbg. cbn. lia. }
    repeat split; cbn [fst snd].
    + assumption.
    + intros k. rewrite Hsame. apply Hfind.
    + intros k. rewrite Hsame. apply Hmax.
    + destruct Hwit as [?|[k Hk]]; [now left|right]. exists k. now rewrite Hsame.
  - set (key := editor.hash_key rr gg bb).
    assert (Hkey : forall k, key_count k (l ++ [(rr, gg, bb)])
                             = (key_count k l + if (key =? k)%Z then 1 else 0)%nat).
    { intros k. rewrite key_count_snoc, Hbg. reflexivity. }
    assert (Hamount : match map_find key ids with
                      | Some second => wrap32 (second + 1)
                      | None => 1
                      end = Z.of_nat (key_count key (l ++ [(rr, gg, bb)]))).
    { rewrite Hfind, Hkey, Z.eqb_refl.
      pose proof (key_count_le_length key l).
      destruct (key_count key l =? 0)%nat eqn:E.
      - apply Nat.eqb_eq in E. rewrite E. reflexivity.
      - unfold wrap32, wrap. rewrite Z.mod_small; lia. }
    rewrite Hamount. clear Hamount.
    repeat split; cbn [fst snd].
    + now apply ascending_assign.
    + intros k. destruct (Z.eq_dec k key) as [->|Hne].
      * rewrite map_find_assign_same.
        replace (key_count key (l ++ [(rr, gg, bb)]) =? 0)%nat with false; [reflexivity|].
        symmetry. apply Nat.eqb_neq. rewrite Hkey, Z.eqb_refl. lia.
      * rewrite map_find_assign_other by assumption.
        rewrite Hkey. replace (key =? k) with false by (symmetry; apply Z.eqb_neq; congruence).
        rewrite Nat.add_0_r. apply Hfind.
    + intros k. pose proof (Hmax k) as Hmaxk. pose proof (Hmax key) as Hmaxkey.
      rewrite !Hkey, Z.eqb_refl.
      destruct (max_amount >? _) eqn:G;
        [apply Z.gtb_lt in G|rewrite Z.gtb_ltb in G; apply Z.ltb_ge in G];
        destruct (key =? k) eqn:E; try (apply Z.eqb_eq in E; subst k); lia.
    + destruct (max_amount >? _) eqn:G.
      * apply Z.gtb_lt in G. rewrite Hkey, Z.eqb_refl in G.
        destruct Hwit as [H0|[k Hk]]; [lia|right].
        exists k. rewrite Hkey.
        destruct (key =? k) eqn:E; [apply Z.eqb_eq in E; subst k; lia|lia].
      * right. exists key. reflexivity.
Qed.

Lemma hist_ok_scan (l : list (Z * Z * Z)) :
  Z.of_nat (List.length l) < 2 ^ 32 ->
  hist_ok l (fold_left (fun st c => editor.count_texel c st) l ([], 0)).
Proof.
  induction l as [|c l IH] using rev_ind; intros Hlen.
  - repeat split; cbn; auto; lia.
  - rewrite length_app in Hlen. cbn in Hlen.
    rewrite fold_left_app. cbn [fold_left].
    apply hist_ok_step; [lia|]. apply IH. lia.
Qed.

Lemma scan_hist_ok (tex_id_dim : Z) (d3d9 : bool) (x : list Byte.byte) :
  id_buffer tex_id_dim x ->
  hist_ok (texels d3d9 x) (editor.scan d3d9 x ([], 0)).
Proof.
  intros (Hd & Hint & Hlen). rewrite scan_texels. apply hist_ok_scan.
  pose proof (texels_length d3d9 x). change (2 ^ 32) with 4294967296. lia.
Qed.

(** The key the decode settles on has the largest count and is the least
    key with that count; there is none exactly when no key was counted. *)
Lemma winning_key_spec (tex_id_dim : Z) (d3d9 : bool) (x : list Byte.byte) :
  id_buffer tex_id_dim x ->
  match editor.winning_key d3d9 x with
  | Some k =>
      key_count k (texels d3d9 x) <> 0%nat
      /\ (forall k', (key_count k' (texels d3d9 x) <= key_count k (texels d3d9 x))%nat)
      /\ (forall k', key_count k' (texels d3d9 x) = key_count k (texels d3d9 x) -> k <= k')
  | None => forall k, key_count k (texels d3d9 x) = 0%nat
  end.
Proof.
  intros Hbuf. pose proof (scan_hist_ok tex_id_dim d3d9 x Hbuf) as Hok.
  unfold editor.winning_key.
  destruct (editor.scan d3d9 x ([], 0)) as [ids max_amount].
  destruct Hok as (Hasc & Hfind & Hmax & Hwit). cbn [fst snd] in *.
  destruct (max_amount =? 0) eqn:E.
  - apply Z.eqb_eq in E. intros k. specialize (Hmax k). lia.
  - apply Z.eqb_neq in E. destruct Hwit as [?|[k0 Hk0]]; [contradiction|].
    assert (Hin0 : In (k0, max_amount) ids).
    { apply map_find_In. rewrite Hfind, Hk0.
      replace (key_count k0 (texels d3d9 x) =? 0)%nat with false; [reflexivity|].
      symmetry. apply Nat.eqb_neq. lia. }
    destruct (first_with_amount_found _ _ _ Hin0) as [[k v] Hkv].
    rewrite Hkv. cbn [option_map fst].
    destruct (first_with_amount_least _ _ _ Hasc Hkv) as (Hv & Hin & Hleast).
    cbn [fst snd] in *. subst v.
    pose proof (In_map_find _ _ _ Hasc Hin) as Hk. rewrite Hfind in Hk.
    destruct (key_count k (texels d3d9 x) =? 0)%nat eqn:Z0; [discriminate|].
    apply Nat.eqb_neq in Z0. injection Hk as Hk.
    repeat split.
    + assumption.
    + intros k'. specialize (Hmax k'). lia.
    + intros k' Hk'. apply Hleast. apply map_find_In. rewrite Hfind, Hk', Hk.
      replace (key_count k (texels d3d9 x) =? 0)%nat with false; [reflexivity|].
      symmetry. now apply Nat.eqb_neq.
Qed.

(** *** Colours and keys *)

Lemma is_background_true (c : Z * Z * Z) :
  editor.is_background c = true <-> c = background.
Proof.
  destruct c as [[rr gg] bb]. unfold editor.is_background, background.
  rewrite Z.eqb_eq. split.
  - intros H. symmetry in H. apply Z.lor_eq_0_iff in H as [H ->].
    apply Z.lor_eq_0_iff in H as [-> ->]. reflexivity.
  - intros [= -> -> ->]. reflexivity.
Qed.

Lemma is_background_false (c : Z * Z * Z) :
  editor.is_background c = false <-> c <> background.
Proof.
  rewrite <- is_background_true. destruct (editor.is_background c); split; congruence.
Qed.

Lemma decode_color_inj (c1 c2 : Z * Z * Z) :
  byte_color c1 -> byte_color c2 -> decode_color c1 = decode_color c2 -> c1 = c2.
Proof.
  destruct c1 as [[r1 g1] b1], c2 as [[r2 g2] b2]. cbn.
  intros (? & ? & ?) (? & ? & ?). rewrite !hash_key_bytes by lia.
  intros Heq. assert (r1 = r2 /\ g1 = g2 /\ b1 = b2) as (-> & -> & ->) by lia.
  reflexivity.
Qed.

Lemma color_eqb_eq (c1 c2 : Z * Z * Z) : color_eqb c1 c2 = true <-> c1 = c2.
Proof.
  destruct c1 as [[r1 g1] b1], c2 as [[r2 g2] b2]. unfold color_eqb.
  rewrite !andb_true_iff, !Z.eqb_eq. split.
  - intros [[-> ->] ->]. reflexivity.
  - intros [= -> -> ->]. auto.
Qed.

Lemma key_count_texel_count (c : Z * Z * Z) (l : list (Z * Z * Z)) :
  byte_color c -> c <> background -> Forall byte_color l ->
  key_count (decode_color c) l = texel_count c l.
Proof.
  intros Hc Hnb Hl. unfold key_count, texel_count. f_equal.
  induction Hl as [|c' l Hc' Hl IH]; [reflexivity|].
  cbn [filter]. rewrite IH.
  replace (negb (editor.is_background c') && (decode_color c' =? decode_color c))
    with (color_eqb c c'); [reflexivity|].
  destruct (color_eqb c c') eqn:E.
  - apply color_eqb_eq in E. subst c'. rewrite Z.eqb_refl.
    apply is_background_false in Hnb. now rewrite Hnb.
  - symmetry. apply andb_false_iff. right. apply Z.eqb_neq. intros H.
    apply decode_color_inj in H; [|assumption..]. subst c'.
    assert (color_eqb c c = true) by now apply color_eqb_eq. congruence.
Qed.

Lemma key_count_pos_texel (k : Z) (l : list (Z * Z * Z)) :
  key_count k l <> 0%nat ->
  exists c, In c l /\ c <> background /\ decode_color c = k.
Proof.
  unfold key_count. intros H.
  destruct (filter _ l) as [|c f] eqn:E; [now elim H|].
  assert (Hin : In c (filter (fun c => negb (editor.is_background c) && (decode_color c =? k)) l))
    by (rewrite E; now left).
  apply filter_In in Hin as [Hin Hc]. apply andb_true_iff in Hc as [Hb Hk].
  exists c. repeat split; [assumption| |now apply Z.eqb_eq].
  apply is_background_false. now destruct (editor.is_background c).
Qed.

Lemma color_id_byte_color (i : Z) : byte_color (editor.color_id i).
Proof.
  rewrite color_id_channels. unfold byte_color.
  repeat split; apply Z.mod_pos_bound; lia.
Qed.

(** *** The decode block in closed form *)

Lemma decode_eq (inp : editor.frame_input) (w : world) :
  editor.decode inp w
  = match editor.winning_key (editor.renderer_is_d3d9 inp) (editor.blit_data inp) with
    | Some k =>
        if editor.ecs_valid_index inp k && editor.ecs_get_valid inp k
        then (Normal tt, set_selection (Some k) (set_reading 0 w), [EvScanBlitData; EvSelect k])
        else (Normal tt, set_reading 0 w, [EvScanBlitData])
    | None =>
        if snd (editor.scan (editor.renderer_is_d3d9 inp) (editor.blit_data inp) ([], 0)) =? 0
        then (Normal tt, set_selection None (set_reading 0 w), [EvScanBlitData; EvUnselect])
        else (Normal tt, set_reading 0 w, [EvScanBlitData])
    end.
Proof.
  unfold editor.decode, editor.winning_key.
  destruct (editor.scan _ _ _) as [ids max_amount]. cbn [snd].
  destruct (max_amount =? 0); [reflexivity|]. cbn [negb].
  destruct (editor.first_with_amount max_amount ids) as [[k v]|]; [|reflexivity].
  cbn [option_map fst].
  destruct (editor.ecs_valid_index inp k), (editor.ecs_get_valid inp k); reflexivity.
Qed.

(** ** What the decode selects *)

Lemma texel_count_pos_In (c : Z * Z * Z) (l : list (Z * Z * Z)) :
  texel_count c l <> 0%nat -> In c l.
Proof.
  unfold texel_count. induction l as [|c' l IH]; intros Hpos; [now elim Hpos|].
  cbn [filter] in Hpos. destruct (color_eqb c c') eqn:E.
  - apply color_eqb_eq in E. subst c'. now left.
  - right. auto.
Qed.

Lemma strict_majorityb_sound (c0 : Z * Z * Z) (l : list (Z * Z * Z)) :
  strict_majorityb c0 l = true ->
  forall c, c <> background -> c <> c0 -> (texel_count c l < texel_count c0 l)%nat.
Proof.
  unfold strict_majorityb. intros H c Hnb Hne.
  apply andb_true_iff in H as [Hpos Hall]. apply Nat.ltb_lt in Hpos.
  destruct (Nat.eq_dec (texel_count c l) 0) as [Hz|Hnz]; [now rewrite Hz|].
  apply texel_count_pos_In in Hnz.
  rewrite forallb_forall in Hall. specialize (Hall c Hnz).
  apply orb_true_iff in Hall as [Hall|Hlt]; [|now apply Nat.ltb_lt].
  apply orb_true_iff in Hall as [Hbg|Heq].
  - apply is_background_true in Hbg. contradiction.
  - apply color_eqb_eq in Heq. contradiction.
Qed.



(** *** The background key *)

Lemma map_assign_keys (k v k' : Z) (m : std_map) :
  In k' (map fst (map_assign k v m)) -> k' = k \/ In k' (map fst m).
Proof.
  induction m as [|[k1 v1] m IH]; cbn.
  - intros [<-|[]]. now left.
  - destruct (k =? k1) eqn:E; cbn.
    + apply Z.eqb_eq in E. subst k1. intuition auto.
    + destruct (k <? k1); cbn; intuition auto.
Qed.

Lemma hash_key_nonzero (c : Z * Z * Z) :
  byte_color c -> editor.is_background c = false -> decode_color c <> 0.
Proof.
  intros Hc Hbg Hz. apply is_background_false in Hbg. apply Hbg.
  apply decode_color_inj; [assumption|cbn; lia|]. rewrite Hz. reflexivity.
Qed.

Lemma count_texel_keys_nonzero (c : Z * Z * Z) (st : std_map * Z) :
  byte_color c ->
  ~ In 0 (map fst (fst st)) -> ~ In 0 (map fst (fst (editor.count_texel c st))).
Proof.
  intros Hc Hst. destruct st as [ids max_amount]. destruct c as [[rr gg] bb].
  unfold editor.count_texel.
  destruct (editor.is_background (rr, gg, bb)) eqn:Hbg; [exact Hst|].
  cbn [fst] in *. intros Hin. apply map_assign_keys in Hin as [Hz|Hin]; [|auto].
  apply (hash_key_nonzero (rr, gg, bb) Hc Hbg). symmetry. exact Hz.
Qed.

Lemma scan_keys_nonzero (d3d9 : bool) (x : list Byte.byte) :
  ~ In 0 (map fst (fst (editor.scan d3d9 x ([], 0)))).
Proof.
  rewrite scan_texels. pose proof (texels_byte_color d3d9 x) as Hb.
  assert (H : forall st, ~ In 0 (map fst (fst st)) ->
              ~ In 0 (map fst (fst (fold_left (fun st c => editor.count_texel c st)
                                               (texels d3d9 x) st)))).
  { induction Hb as [|c l Hc Hl IH]; intros st Hst; [exact Hst|].
    cbn [fold_left]. apply IH. now apply count_texel_keys_nonzero. }
  apply H. cbn. tauto.
Qed.

Lemma winning_key_in_histogram (d3d9 : bool) (x : list Byte.byte) (k : Z) :
  editor.winning_key d3d9 x = Some k ->
  In k (map fst (fst (editor.scan d3d9 x ([], 0)))).
Proof.
  unfold editor.winning_key, editor.first_with_amount.
  destruct (editor.scan d3d9 x ([], 0)) as [ids max_amount]. cbn [fst].
  destruct (max_amount =? 0); [discriminate|].
  destruct (find _ ids) as [kv|] eqn:E; [|discriminate].
  intros [= <-]. apply find_some in E as [Hin _]. now apply in_map.
Qed.

Lemma scan_all_background (d3d9 : bool) (x : list Byte.byte) :
  Forall (fun c => c = background) (texels d3d9 x) ->
  editor.scan d3d9 x ([], 0) = ([], 0).
Proof.
  rewrite scan_texels. generalize (texels d3d9 x). intros l Hl.
  induction Hl as [|c l Hc Hl IH]; [reflexivity|].
  subst c. cbn [fold_left]. exact IH.
Qed.

(** C5: the histogram never holds the key of the background triple, the
    decode never selects through that key, and a staging array whose texels
    are all background makes the decode clear the selection. *)
Theorem background_is_never_selected (inp : editor.frame_input) (w : world) :
  ~ In (decode_color background)
       (map fst (fst (editor.scan (editor.renderer_is_d3d9 inp) (editor.blit_data inp) ([], 0))))
  /\ ~ In (Select (decode_color background))
          (emitted_outcomes (events_of (editor.decode inp w)))
  /\ (Forall (fun c => c = background)
             (texels (editor.renderer_is_d3d9 inp) (editor.blit_data inp)) ->
      emitted_outcomes (events_of (editor.decode inp w)) = [Deselect]
      /\ selection (final_world (editor.decode inp w)) = None).
Proof.
  change (decode_color background) with 0.
  split; [apply scan_keys_nonzero|]. split.
  - rewrite decode_eq.
    destruct (editor.winning_key _ _) as [k|] eqn:Hk.
    + assert (k <> 0).
      { intros ->. apply winning_key_in_histogram in Hk.
        now apply scan_keys_nonzero in Hk. }
      destruct (_ && _); cbn; [|tauto]. intros [[= ?]|[]]. congruence.
    + destruct (_ =? 0); cbn; [|tauto]. intros [?|[]]. discriminate.
  - intros Hall. rewrite decode_eq. unfold editor.winning_key.
    rewrite (scan_all_background _ _ Hall). split; reflexivity.
Qed.

Lemma background_witness :
  emitted_outcomes (events_of (editor.decode black_input entity_7_selected)) = [Deselect]
  /\ selection (final_world (editor.decode black_input entity_7_selected)) = None.
Proof.
  apply (background_is_never_selected black_input entity_7_selected).
  repeat constructor.
Defined.

(** *** A winning key that is not a live entity *)

(** C6 (amended): when the winning key is not the index of a live entity
    ([valid_index] fails, or the handle obtained for it is not valid), the
    decode emits no outcome at all: the selection stays what it was, and,
    no blit being pending, the read-back state goes back to idle. *)
Theorem stale_winner_leaves_selection (inp : editor.frame_input) (w : world) (k : Z) :
  _start_readback w = false ->
  editor.winning_key (editor.renderer_is_d3d9 inp) (editor.blit_data inp) = Some k ->
  editor.ecs_valid_index inp k = false \/ editor.ecs_get_valid inp k = false ->
  emitted_outcomes (events_of (editor.decode inp w)) = []
  /\ selection (final_world (editor.decode inp w)) = selection w
  /\ _reading (final_world (editor.decode inp w)) = 0
  /\ readback_state (final_world (editor.decode inp w)) = Idle.
Proof.
  intros Hs Hk Hstale. rewrite decode_eq, Hk.
  replace (editor.ecs_valid_index inp k && editor.ecs_get_valid inp k) with false.
  - repeat split; try reflexivity.
    unfold readback_state, final_world. cbn [fst snd set_reading _reading _start_readback].
    rewrite Hs. reflexivity.
  - destruct Hstale as [-> | ->]; [reflexivity|]. now rewrite andb_false_r.
Qed.

Lemma stale_winner_witness :
  emitted_outcomes (events_of (editor.decode stale_pick_input entity_7_selected)) = []
  /\ selection (final_world (editor.decode stale_pick_input entity_7_selected)) = Some 7
  /\ _reading (final_world (editor.decode stale_pick_input entity_7_selected)) = 0
  /\ readback_state (final_world (editor.decode stale_pick_input entity_7_selected)) = Idle.
Proof.
  apply (stale_winner_leaves_selection stale_pick_input entity_7_selected 1).
  - reflexivity.
  - reflexivity.
  - left. reflexivity.
Defined.

(** C6, as stated, fails: one texel of key 1, no entity index valid, entity
    7 selected; the decode does not deselect, entity 7 stays selected. *)
Lemma stale_winner_is_not_deselect :
  editor.winning_key (editor.renderer_is_d3d9 stale_pick_input)
                     (editor.blit_data stale_pick_input) = Some 1
  /\ editor.ecs_valid_index stale_pick_input 1 = false
  /\ emitted_outcomes (events_of (editor.decode stale_pick_input entity_7_selected))
     <> [Deselect]
  /\ selection (final_world (editor.decode stale_pick_input entity_7_selected)) = Some 7.
Proof.
  repeat split. vm_compute. discriminate.
Qed.

(** *** Ties *)

(** C9: when two different non-background colours are tied at the largest
    number of texels, the decode settles on a key fixed by the contents of the
    staging array alone: it is the key of a colour with that largest number
    of texels, and the numerically least such key, the first the
    key-ordered map yields.  Any two ticks reading the same array under the
    same renderer type therefore get the same winning key. *)
Theorem tie_break_is_least_key
    (tex_id_dim : Z) (d3d9 : bool) (x : list Byte.byte) (c1 c2 : Z * Z * Z) :
  id_buffer tex_id_dim x ->
  c1 <> background -> c2 <> background -> c1 <> c2 ->
  texel_count c1 (texels d3d9 x) = texel_count c2 (texels d3d9 x) ->
  (0 < texel_count c1 (texels d3d9 x))%nat ->
  (forall c, c <> background ->
     (texel_count c (texels d3d9 x) <= texel_count c1 (texels d3d9 x))%nat) ->
  (exists c,
      c <> background
      /\ editor.winning_key d3d9 x = Some (decode_color c)
      /\ texel_count c (texels d3d9 x) = texel_count c1 (texels d3d9 x)
      /\ decode_color c <= decode_color c1
      /\ decode_color c <= decode_color c2
      /\ forall c', c' <> background ->
            texel_count c' (texels d3d9 x) = texel_count c1 (texels d3d9 x) ->
            decode_color c <= decode_color c')
  /\ (forall inp1 inp2 : editor.frame_input,
        editor.blit_data inp1 = x -> editor.blit_data inp2 = x ->
        editor.renderer_is_d3d9 inp1 = d3d9 -> editor.renderer_is_d3d9 inp2 = d3d9 ->
        editor.winning_key (editor.renderer_is_d3d9 inp1) (editor.blit_data inp1)
        = editor.winning_key (editor.renderer_is_d3d9 inp2) (editor.blit_data inp2)).
Proof.
  intros Hbuf Hnb1 Hnb2 Hne Htie Hpos Hmax.
  split; [|intros inp1 inp2 -> -> -> ->; reflexivity].
  set (l := texels d3d9 x) in *.
  pose proof (texels_byte_color d3d9 x) as Hbytes. fold l in Hbytes.
  rewrite Forall_forall in Hbytes.
  assert (Hb1 : byte_color c1) by (apply Hbytes, texel_count_pos_In; lia).
  pose proof (winning_key_spec tex_id_dim d3d9 x Hbuf) as Hspec. fold l in Hspec.
  destruct (editor.winning_key d3d9 x) as [k|].
  - destruct Hspec as (Hkpos & Hkmax & Hleast).
    destruct (key_count_pos_texel _ _ Hkpos) as (c & Hin & Hcnb & Hck).
    assert (Hcb : byte_color c) by auto.
    assert (Hall : Forall byte_color l) by now apply Forall_forall.
    assert (Hcount : texel_count c l = texel_count c1 l).
    { specialize (Hkmax (decode_color c1)). rewrite <- Hck in Hkmax.
      rewrite !key_count_texel_count in Hkmax by assumption.
      specialize (Hmax c Hcnb). lia. }
    assert (Hkeys : forall c', c' <> background ->
              texel_count c' l = texel_count c1 l -> decode_color c <= decode_color c').
    { intros c' Hnb' Hc'. rewrite Hck. apply Hleast.
      assert (byte_color c') by (apply Hbytes, texel_count_pos_In; lia).
      rewrite <- Hck. rewrite !key_count_texel_count by assumption. lia. }
    exists c. subst k. repeat split; auto.
  - specialize (Hspec (decode_color c1)).
    rewrite key_count_texel_count in Hspec by (try assumption; now apply Forall_forall).
    lia.
Qed.

Lemma tie_break_witness :
  (exists c,
      c <> background
      /\ editor.winning_key true tied_data = Some (decode_color c)
      /\ texel_count c (texels true tied_data) = texel_count (9, 0, 0) (texels true tied_data)
      /\ decode_color c <= decode_color (9, 0, 0)
      /\ decode_color c <= decode_color (5, 0, 0)
      /\ forall c', c' <> background ->
            texel_count c' (texels true tied_data)
            = texel_count (9, 0, 0) (texels true tied_data) ->
            decode_color c <= decode_color c')
  /\ (forall inp1 inp2 : editor.frame_input,
        editor.blit_data inp1 = tied_data -> editor.blit_data inp2 = tied_data ->
        editor.renderer_is_d3d9 inp1 = true -> editor.renderer_is_d3d9 inp2 = true ->
        editor.winning_key (editor.renderer_is_d3d9 inp1) (editor.blit_data inp1)
        = editor.winning_key (editor.renderer_is_d3d9 inp2) (editor.blit_data inp2)).
Proof.
  apply (tie_break_is_least_key 2 true tied_data (9, 0, 0) (5, 0, 0)).
  - vm_compute. repeat split; congruence.
  - discriminate.
  - discriminate.
  - discriminate.
  - reflexivity.
  - vm_compute. lia.
  - intros c Hnb.
    destruct (Nat.eq_dec (texel_count c (texels true tied_data)) 0) as [->|Hnz]; [lia|].
    apply texel_count_pos_In in Hnz. vm_compute in Hnz.
    destruct Hnz as [<-|[<-|[<-|[<-|[]]]]]; vm_compute; lia.
Defined.

Example tie_break_picks_5 : editor.winning_key true tied_data = Some 5.
Proof. reflexivity. Qed.

(** ** The frame tick *)

Lemma count_events_app (p : event -> bool) (a b : list event) :
  count_events p (a ++ b) = (count_events p a + count_events p b)%nat.
Proof. unfold count_events. now rewrite filter_app, length_app. Qed.

Lemma emitted_outcomes_app (a b : list event) :
  emitted_outcomes (a ++ b) = emitted_outcomes a ++ emitted_outcomes b.
Proof.
  induction a as [|e a IH]; [reflexivity|].
  destruct e; cbn; rewrite ?IH; reflexivity.
Qed.

Lemma no_readback_events_app (a b : list event) :
  no_readback_events a -> no_readback_events b -> no_readback_events (a ++ b).
Proof.
  intros (A1 & A2 & A3 & A4) (B1 & B2 & B3 & B4). unfold no_readback_events.
  rewrite !count_events_app, emitted_outcomes_app, A1, A2, A3, A4, B1, B2, B3, B4.
  repeat split.
Qed.

Lemma draw_entity_eq (pass : Z) (e : editor.entity) (w : world) :
  editor.draw_entity pass e w = (Normal tt, w, draw_events pass [e]).
Proof.
  unfold editor.draw_entity, draw_events. cbn [flat_map].
  destruct (editor.model_is_valid e), (editor.has_lod0 e), (editor.obb_in_pick_frustum e);
    cbn [negb andb]; try reflexivity.
Qed.

Lemma for_each_draw_entity (pass : Z) (es : list editor.entity) (w : world) :
  for_each es (editor.draw_entity pass) w = (Normal tt, w, draw_events pass es).
Proof.
  induction es as [|e es IH]; [reflexivity|].
  cbn [for_each]. unfold bind at 1. rewrite draw_entity_eq, IH.
  unfold draw_events. cbn [flat_map]. now rewrite app_nil_r.
Qed.

Lemma draw_events_quiet (pass : Z) (es : list editor.entity) :
  count_events is_fill_pass (draw_events pass es) = 0%nat
  /\ no_readback_events (draw_events pass es).
Proof.
  induction es as [|e es (IH1 & IH2)]; [repeat split|].
  cbn [draw_events flat_map]. fold (draw_events pass es).
  rewrite count_events_app, IH1.
  destruct (_ && _); [destruct (editor.color_id _) as [[rr gg] bb]|];
    (split; [reflexivity|apply no_readback_events_app; [repeat split|assumption]]).
Qed.

Section tick.

Variable view_id_bits : Z.
Variable tex_id_dim : Z.

Local Abbreviation frame_render := (editor.frame_render view_id_bits tex_id_dim).
Local Abbreviation pick_request := (editor.pick_request view_id_bits tex_id_dim).
Local Abbreviation start_readback := (editor.start_readback view_id_bits).

Local Abbreviation readback := (editor.readback view_id_bits).

(** The click block, then the read-back blocks unless the click block
    returned. *)
Lemma frame_render_blocks (inp : editor.frame_input) (w : world) :
  frame_render inp w
  = match when (editor.mouse_left_pressed inp) (pick_request inp) w with
    | (Returned, w1, e1) => (Returned, w1, e1)
    | (Normal _, w1, e1) =>
        match readback inp w1 with
        | (c, w2, e2) => (c, w2, e1 ++ e2)
        end
    end.
Proof. reflexivity. Qed.

Lemma readback_blocks (inp : editor.frame_input) (w1 : world) :
  readback inp w1
  = match when ((_reading w1 =? 0) && _start_readback w1) (start_readback inp) w1 with
    | (Returned, w2, e2) => (Returned, w2, e2)
    | (Normal _, w2, e2) =>
        match when (editor.fence_reached (_reading w2) (editor.render_frame inp))
                   (editor.decode inp) w2 with
        | (c, w3, e3) => (c, w3, e2 ++ e3)
        end
    end.
Proof.
  unfold editor.readback.
  unfold bind at 1. unfold gets at 1. unfold bind at 1. unfold gets at 1.
  unfold bind at 1.
  destruct (when ((_reading w1 =? 0) && _start_readback w1) (start_readback inp) w1)
    as [[[[]|] w2] e2]; [|reflexivity].
  unfold bind at 1. unfold gets at 1.
  destruct (when _ (editor.decode inp) w2) as [[c w3] e3]. reflexivity.
Qed.

Lemma pick_request_rejected (inp : editor.frame_input) (w : world) :
  pick_guards inp (selection w) = false ->
  pick_request inp w = (Returned, w, []).
Proof.
  unfold pick_guards, editor.pick_request. intros Hg.
  unfold bind at 1. unfold gets at 1.
  destruct (editor.imguizmo_is_over inp && _); [reflexivity|].
  destruct (editor.editor_camera_valid inp), (editor.has_camera_component inp),
    (editor.near_unproject_ok inp), (editor.far_unproject_ok inp);
    try reflexivity; discriminate.
Qed.

(** Opening a pass takes a slot and names the view; it leaves the picking
    members and the selection alone. *)
Lemma render_pass_spec (n : string) (w : world) :
  exists id w1 ev1,
    gfx.render_pass view_id_bits n w = (Normal id, w1, ev1)
    /\ _reading w1 = _reading w /\ _start_readback w1 = _start_readback w
    /\ selection w1 = selection w
    /\ count_events is_fill_pass ev1 = (if String.eqb n "picking_buffer_fill" then 1 else 0)%nat
    /\ no_readback_events ev1.
Proof.
  unfold gfx.render_pass. unfold bind at 1. rewrite generate_id_eq.
  destruct (s_index w =? 255); cbv beta iota; unfold bind at 1; unfold emit at 1;
    cbv beta iota; unfold ret at 1; do 3 eexists; (split; [reflexivity|]);
    repeat split; cbn; destruct (String.eqb n "picking_buffer_fill"); reflexivity.
Qed.

(** An accepted click drops the fence, arms the read-back and opens the
    identity-buffer pass once. *)
Lemma pick_request_accepted (inp : editor.frame_input) (w : world) :
  pick_guards inp (selection w) = true ->
  exists w1 ev1,
    pick_request inp w = (Normal tt, w1, ev1)
    /\ _reading w1 = 0 /\ _start_readback w1 = true /\ selection w1 = selection w
    /\ count_events is_fill_pass ev1 = 1%nat
    /\ no_readback_events ev1.
Proof.
  unfold pick_guards, editor.pick_request. intros Hg.
  unfold bind at 1. unfold gets at 1.
  destruct (editor.imguizmo_is_over inp && _); [discriminate|].
  destruct (editor.editor_camera_valid inp); [|discriminate].
  destruct (editor.has_camera_component inp); [|discriminate].
  destruct (editor.near_unproject_ok inp); [|discriminate].
  destruct (editor.far_unproject_ok inp); [|discriminate].
  cbn [negb orb].
  unfold bind at 1; unfold modify at 1; cbv beta iota.
  unfold bind at 1; unfold modify at 1; cbv beta iota.
  destruct (render_pass_spec "picking_buffer_fill" (set_start_readback true (set_reading 0 w)))
    as (id & w1 & ev1 & Heq & Hr & Hs & Hsel & Hfill & Hquiet).
  unfold bind at 1. rewrite Heq. cbv beta iota.
  unfold bind at 1.
  replace (gfx.bind_fb id (Some (tex_id_dim, tex_id_dim)) w1)
    with (Normal tt, w1, [EvSetViewRect id (wrap16 tex_id_dim) (wrap16 tex_id_dim);
                          EvSetViewScissor id (wrap16 tex_id_dim) (wrap16 tex_id_dim);
                          EvSetViewFrameBuffer id; EvTouch id]) by reflexivity.
  cbv beta iota.
  unfold bind at 1; unfold gfx.clear, emit at 1; cbv beta iota.
  unfold bind at 1; unfold gfx.set_view_proj, emit at 1; cbv beta iota.
  rewrite for_each_draw_entity.
  destruct (draw_events_quiet id (editor.entities inp)) as (Q1 & Q2).
  do 2 eexists. split; [reflexivity|].
  split; [exact Hr|]. split; [exact Hs|]. split; [exact Hsel|].
  cbn [app]. split.
  - rewrite count_events_app, Hfill. cbn. unfold count_events in Q1. now rewrite Q1.
  - apply no_readback_events_app; [assumption|].
    apply (no_readback_events_app [_; _; _; _; _; _]); [repeat split|assumption].
Qed.

(** Without blit support the read-back step warns, disarms and returns. *)
Lemma start_readback_unsupported (inp : editor.frame_input) (w : world) :
  editor.blit_support inp = false ->
  start_readback inp w
  = (Returned, set_start_readback false w,
     [EvLogWarning "Texture blitting is not supported. Picking will not work"]).
Proof.
  unfold editor.start_readback. intros ->. reflexivity.
Qed.

(** With blit support it opens the blit pass, blits, starts the read and
    records the frame number the read returned. *)
Lemma start_readback_supported (inp : editor.frame_input) (w : world) :
  editor.blit_support inp = true ->
  exists w2 ev2,
    start_readback inp w = (Normal tt, w2, ev2)
    /\ _reading w2 = editor.read_texture_result inp /\ _start_readback w2 = false
    /\ selection w2 = selection w
    /\ count_events is_fill_pass ev2 = 0%nat
    /\ count_events is_blit ev2 = 1%nat
    /\ count_events is_warning ev2 = 0%nat
    /\ count_events is_scan ev2 = 0%nat
    /\ emitted_outcomes ev2 = [].
Proof.
  unfold editor.start_readback. intros ->. cbn [negb].
  destruct (render_pass_spec "picking_buffer_blit" w)
    as (id & w1 & ev1 & Heq & Hr & Hs & Hsel & Hfill & Hb & Hw & Hsc & Ho).
  unfold bind at 1. rewrite Heq. cbv beta iota.
  do 2 eexists. split; [reflexivity|]. cbn [app].
  split; [reflexivity|]. split; [reflexivity|]. split; [exact Hsel|].
  rewrite !count_events_app, emitted_outcomes_app, Hfill, Hb, Hw, Hsc, Ho.
  repeat split.
Qed.

(** The decode block always runs to its end, scans the array once, opens no
    pass, and leaves [_reading] at zero. *)
Lemma decode_spec (inp : editor.frame_input) (w : world) :
  exists w3 ev3,
    editor.decode inp w = (Normal tt, w3, ev3)
    /\ _reading w3 = 0 /\ _start_readback w3 = _start_readback w
    /\ count_events is_fill_pass ev3 = 0%nat
    /\ count_events is_blit ev3 = 0%nat
    /\ count_events is_warning ev3 = 0%nat
    /\ count_events is_scan ev3 = 1%nat.
Proof.
  rewrite decode_eq.
  destruct (editor.winning_key _ _) as [k|];
    [destruct (_ && _)|destruct (_ =? 0)];
    do 2 eexists; (split; [reflexivity|]); repeat split.
Qed.

(** *** The read-back blocks, case by case *)

Lemma readback_idle (inp : editor.frame_input) (w : world) :
  _reading w = 0 -> _start_readback w = false ->
  readback inp w = (Normal tt, w, []).
Proof.
  intros Hr Hs. rewrite readback_blocks, Hr, Hs. cbn. rewrite Hr. reflexivity.
Qed.

Lemma readback_waiting (inp : editor.frame_input) (w : world) :
  _reading w <> 0 -> editor.render_frame inp < _reading w ->
  readback inp w = (Normal tt, w, []).
Proof.
  intros Hr Hf. rewrite readback_blocks.
  apply Z.eqb_neq in Hr. rewrite Hr. cbn [andb when ret].
  unfold editor.fence_reached. rewrite Hr.
  replace (_reading w <=? editor.render_frame inp) with false
    by (symmetry; apply Z.leb_gt; exact Hf).
  reflexivity.
Qed.

Lemma readback_unsupported (inp : editor.frame_input) (w : world) :
  _reading w = 0 -> _start_readback w = true -> editor.blit_support inp = false ->
  readback inp w
  = (Returned, set_start_readback false w,
     [EvLogWarning "Texture blitting is not supported. Picking will not work"]).
Proof.
  intros Hr Hs Hb. rewrite readback_blocks, Hr, Hs. cbn [Z.eqb andb when].
  now rewrite start_readback_unsupported.
Qed.

Lemma readback_blit (inp : editor.frame_input) (w : world) :
  _reading w = 0 -> _start_readback w = true -> editor.blit_support inp = true ->
  exists c w' ev,
    readback inp w = (c, w', ev)
    /\ count_events is_fill_pass ev = 0%nat
    /\ count_events is_blit ev = 1%nat
    /\ count_events is_warning ev = 0%nat
    /\ _start_readback w' = false
    /\ _reading w'
       = (if editor.fence_reached (editor.read_texture_result inp) (editor.render_frame inp)
          then 0 else editor.read_texture_result inp)
    /\ (if editor.fence_reached (editor.read_texture_result inp) (editor.render_frame inp)
        then count_events is_scan ev = 1%nat
        else c = Normal tt /\ count_events is_scan ev = 0%nat
             /\ emitted_outcomes ev = [] /\ selection w' = selection w).
Proof.
  intros Hr Hs Hb. rewrite readback_blocks, Hr, Hs. cbn [Z.eqb andb when].
  destruct (start_readback_supported inp w Hb)
    as (w2 & ev2 & Heq & Hr2 & Hs2 & Hsel2 & Hf2 & Hb2 & Hw2 & Hsc2 & Ho2).
  rewrite Heq, Hr2.
  destruct (editor.fence_reached _ _); cbn [when].
  - destruct (decode_spec inp w2) as (w3 & ev3 & Heq3 & Hr3 & Hs3 & Hf3 & Hb3 & Hw3 & Hsc3).
    rewrite Heq3. do 3 eexists. split; [reflexivity|].
    rewrite !count_events_app, Hf2, Hb2, Hw2, Hsc2, Hf3, Hb3, Hw3, Hsc3.
    repeat split; congruence.
  - do 3 eexists. split; [reflexivity|]. cbn [ret]. rewrite app_nil_r.
    repeat split; assumption.
Qed.

Lemma readback_due (inp : editor.frame_input) (w : world) :
  _reading w <> 0 -> _reading w <= editor.render_frame inp ->
  readback inp w = editor.decode inp w.
Proof.
  intros Hr Hf. rewrite readback_blocks.
  apply Z.eqb_neq in Hr. rewrite Hr. cbn [andb when ret].
  unfold editor.fence_reached. rewrite Hr.
  replace (_reading w <=? editor.render_frame inp) with true
    by (symmetry; apply Z.leb_le; exact Hf).
  cbn [negb andb when]. destruct (editor.decode inp w) as [[c w3] e3]. reflexivity.
Qed.

(** *** The whole tick *)

Lemma tick_rejected (inp : editor.frame_input) (w : world) :
  editor.mouse_left_pressed inp = true -> pick_guards inp (selection w) = false ->
  frame_render inp w = (Returned, w, []).
Proof.
  intros Hm Hg. rewrite frame_render_blocks, Hm. cbn [when].
  now rewrite pick_request_rejected.
Qed.

Lemma tick_no_click (inp : editor.frame_input) (w : world) :
  editor.mouse_left_pressed inp = false ->
  frame_render inp w = readback inp w.
Proof.
  intros Hm. rewrite frame_render_blocks, Hm. cbn [when ret].
  destruct (readback inp w) as [[c w2] e2]. reflexivity.
Qed.

Lemma pick_accepted_split (inp : editor.frame_input) (sel : option Z) :
  pick_accepted inp sel = true ->
  editor.mouse_left_pressed inp = true /\ pick_guards inp sel = true.
Proof. unfold pick_accepted. intros H. now apply andb_true_iff in H. Qed.

Lemma pick_not_accepted (inp : editor.frame_input) (sel : option Z) :
  pick_accepted inp sel = false ->
  editor.mouse_left_pressed inp = false
  \/ (editor.mouse_left_pressed inp = true /\ pick_guards inp sel = false).
Proof.
  unfold pick_accepted. destruct (editor.mouse_left_pressed inp); cbn; auto.
Qed.

(** A tick with an accepted click: one identity-buffer pass, and the
    read-back step in the same tick. *)
Lemma tick_accepted (inp : editor.frame_input) (w : world) :
  pick_accepted inp (selection w) = true ->
  exists c w' ev,
    frame_render inp w = (c, w', ev)
    /\ count_events is_fill_pass ev = 1%nat
    /\ _start_readback w' = false
    /\ (editor.blit_support inp = false ->
        c = Returned /\ _reading w' = 0 /\ selection w' = selection w
        /\ count_events is_warning ev = 1%nat /\ count_events is_blit ev = 0%nat
        /\ count_events is_scan ev = 0%nat /\ emitted_outcomes ev = [])
    /\ (editor.blit_support inp = true ->
        count_events is_blit ev = 1%nat /\ count_events is_warning ev = 0%nat
        /\ _reading w'
           = (if editor.fence_reached (editor.read_texture_result inp) (editor.render_frame inp)
              then 0 else editor.read_texture_result inp)
        /\ (if editor.fence_reached (editor.read_texture_result inp) (editor.render_frame inp)
            then count_events is_scan ev = 1%nat
            else c = Normal tt /\ count_events is_scan ev = 0%nat
                 /\ emitted_outcomes ev = [] /\ selection w' = selection w)).
Proof.
  intros Hacc. apply pick_accepted_split in Hacc as [Hm Hg].
  rewrite frame_render_blocks, Hm. cbn [when].
  destruct (pick_request_accepted inp w Hg)
    as (w1 & ev1 & Heq & Hr1 & Hs1 & Hsel1 & Hfill1 & Hb1 & Hw1 & Hsc1 & Ho1).
  rewrite Heq.
  destruct (editor.blit_support inp) eqn:Hblit.
  - destruct (readback_blit inp w1 Hr1 Hs1 Hblit)
      as (c & w' & ev & Heq2 & Hf2 & Hb2 & Hw2 & Hs2 & Hr2 & Hrest).
    rewrite Heq2. do 3 eexists. split; [reflexivity|].
    rewrite !count_events_app, emitted_outcomes_app, Hfill1, Hb1, Hw1, Hsc1, Ho1, Hf2, Hb2, Hw2.
    split; [reflexivity|]. split; [assumption|]. split; [discriminate|].
    intros _. split; [reflexivity|]. split; [reflexivity|]. split; [assumption|].
    destruct (editor.fence_reached _ _); [assumption|].
    destruct Hrest as (? & ? & ? & ?). repeat split; try assumption; congruence.
  - rewrite (readback_unsupported inp w1 Hr1 Hs1 Hblit).
    do 3 eexists. split; [reflexivity|].
    rewrite !count_events_app, emitted_outcomes_app, Hfill1, Hb1, Hw1, Hsc1, Ho1.
    split; [reflexivity|]. split; [reflexivity|]. split; [|discriminate].
    intros _. repeat split; assumption.
Qed.

(** A tick without an accepted click changes nothing while the fence is
    ahead of the frame counter, or while idle. *)
Lemma tick_not_accepted_waiting (inp : editor.frame_input) (w : world) :
  pick_accepted inp (selection w) = false ->
  _reading w <> 0 -> editor.render_frame inp < _reading w ->
  final_world (frame_render inp w) = w /\ events_of (frame_render inp w) = [].
Proof.
  intros Hacc Hr Hf. destruct (pick_not_accepted _ _ Hacc) as [Hm|[Hm Hg]].
  - rewrite tick_no_click, readback_waiting by assumption. split; reflexivity.
  - rewrite tick_rejected by assumption. split; reflexivity.
Qed.

Lemma tick_not_accepted_idle (inp : editor.frame_input) (w : world) :
  pick_accepted inp (selection w) = false ->
  _reading w = 0 -> _start_readback w = false ->
  final_world (frame_render inp w) = w /\ events_of (frame_render inp w) = [].
Proof.
  intros Hacc Hr Hs. destruct (pick_not_accepted _ _ Hacc) as [Hm|[Hm Hg]].
  - rewrite tick_no_click, readback_idle by assumption. split; reflexivity.
  - rewrite tick_rejected by assumption. split; reflexivity.
Qed.

(** *** A click while a read-back is outstanding *)

(** C1 (amended): on a tick where the click edge fires while a fence frame
    is recorded and not yet reached, the click is dropped (the tick returns
    at once, with no pass opened and nothing altered) only when one of the
    gizmo, camera or un-projection guards rejects it.  Otherwise the click
    opens a new identity-buffer pass, the first request's fence is
    discarded and the read-back step runs again in the same tick: what
    [_reading] holds afterwards is the new request's frame number, or zero. *)
Theorem click_while_awaiting_fence (inp : editor.frame_input) (w : world) :
  editor.mouse_left_pressed inp = true ->
  _reading w <> 0 -> editor.render_frame inp < _reading w ->
  (pick_guards inp (selection w) = false ->
     frame_render inp w = (Returned, w, []))
  /\ (pick_guards inp (selection w) = true ->
      count_events is_fill_pass (events_of (frame_render inp w)) = 1%nat
      /\ (count_events is_blit (events_of (frame_render inp w))
          + count_events is_warning (events_of (frame_render inp w)) = 1)%nat
      /\ _start_readback (final_world (frame_render inp w)) = false
      /\ _reading (final_world (frame_render inp w))
         = if editor.blit_support inp
              && negb (editor.fence_reached (editor.read_texture_result inp)
                                            (editor.render_frame inp))
           then editor.read_texture_result inp else 0).
Proof.
  intros Hm Hr Hf. split; [now apply tick_rejected|].
  intros Hg.
  assert (Hacc : pick_accepted inp (selection w) = true)
    by (unfold pick_accepted; now rewrite Hm, Hg).
  destruct (tick_accepted inp w Hacc) as (c & w' & ev & Heq & Hfill & Hs & Hno & Hyes).
  rewrite Heq. unfold events_of, final_world. cbn [fst snd].
  split; [assumption|].
  destruct (editor.blit_support inp).
  - destruct (Hyes eq_refl) as (Hb & Hw & Hr' & _). rewrite Hb, Hw, Hr'.
    repeat split; [assumption|]. cbn [andb]. now destruct (editor.fence_reached _ _).
  - destruct (Hno eq_refl) as (_ & Hr' & _ & Hw & Hb & _). rewrite Hb, Hw, Hr'.
    repeat split; assumption.
Qed.

(** *** Waiting for the fence *)

(** C8 (amended): while a fence frame is recorded and the completed-frame
    counter is still below it, a tick on which no new pick is accepted (no
    click, or a click rejected by a guard) changes nothing and makes no
    call at all, so it does not decode.  If the staging array is scanned
    on such a tick, a new pick was accepted on it, and the frame number its
    read returned, the fence then recorded, is non-zero and at most the
    completed-frame counter. *)
Theorem fence_ahead_of_frame_counter (inp : editor.frame_input) (w : world) :
  _reading w <> 0 -> editor.render_frame inp < _reading w ->
  (pick_accepted inp (selection w) = false ->
     final_world (frame_render inp w) = w /\ events_of (frame_render inp w) = [])
  /\ (count_events is_scan (events_of (frame_render inp w)) <> 0%nat ->
      pick_accepted inp (selection w) = true
      /\ editor.blit_support inp = true
      /\ editor.read_texture_result inp <> 0
      /\ editor.read_texture_result inp <= editor.render_frame inp).
Proof.
  intros Hr Hf. split; [intros Hacc; now apply tick_not_accepted_waiting|].
  intros Hscan.
  destruct (pick_accepted inp (selection w)) eqn:Hacc.
  - destruct (tick_accepted inp w Hacc) as (c & w' & ev & Heq & _ & _ & Hno & Hyes).
    rewrite Heq in Hscan. unfold events_of in Hscan. cbn [snd] in Hscan.
    destruct (editor.blit_support inp).
    + destruct (Hyes eq_refl) as (_ & _ & _ & Hrest).
      unfold editor.fence_reached in Hrest.
      destruct (editor.read_texture_result inp =? 0) eqn:E0;
        [cbn in Hrest; destruct Hrest as (_ & Hz & _); contradiction|].
      destruct (editor.read_texture_result inp <=? editor.render_frame inp) eqn:E1;
        [|cbn in Hrest; destruct Hrest as (_ & Hz & _); contradiction].
      apply Z.eqb_neq in E0. apply Z.leb_le in E1. auto.
    + destruct (Hno eq_refl) as (_ & _ & _ & _ & _ & Hz & _). contradiction.
  - destruct (tick_not_accepted_waiting inp w Hacc Hr Hf) as [_ Hev].
    rewrite Hev in Hscan. now elim Hscan.
Qed.

(** *** A read that could not be scheduled *)

(** C10: on a tick that issues the blit and whose read returns frame 0, the
    tick ends idle ([_reading] zero, [_start_readback] cleared) without
    scanning the staging array and without any outcome, the selection is
    what it was; later ticks without a click do nothing at all, and the
    next accepted click opens an identity-buffer pass as usual. *)
Theorem unscheduled_read_returns_to_idle (inp : editor.frame_input) (w : world) :
  count_events is_blit (events_of (frame_render inp w)) <> 0%nat ->
  editor.read_texture_result inp = 0 ->
  control_of (frame_render inp w) = Normal tt
  /\ readback_state (final_world (frame_render inp w)) = Idle
  /\ count_events is_scan (events_of (frame_render inp w)) = 0%nat
  /\ emitted_outcomes (events_of (frame_render inp w)) = []
  /\ selection (final_world (frame_render inp w)) = selection w
  /\ (forall inp', editor.mouse_left_pressed inp' = false ->
        frame_render inp' (final_world (frame_render inp w))
        = (Normal tt, final_world (frame_render inp w), []))
  /\ (forall inp', pick_accepted inp' (selection (final_world (frame_render inp w))) = true ->
        count_events is_fill_pass
          (events_of (frame_render inp' (final_world (frame_render inp w)))) = 1%nat).
Proof.
  intros Hblit Hzero.
  assert (Hkey : exists c w' ev,
            frame_render inp w = (c, w', ev)
            /\ c = Normal tt /\ _reading w' = 0 /\ _start_readback w' = false
            /\ count_events is_scan ev = 0%nat /\ emitted_outcomes ev = []
            /\ selection w' = selection w).
  { destruct (pick_accepted inp (selection w)) eqn:Hacc.
    - destruct (tick_accepted inp w Hacc) as (c & w' & ev & Heq & _ & Hs & Hno & Hyes).
      rewrite Heq in Hblit. unfold events_of in Hblit. cbn [snd] in Hblit.
      destruct (editor.blit_support inp).
      + destruct (Hyes eq_refl) as (_ & _ & Hr' & Hrest).
        rewrite Hzero in Hr', Hrest. cbn in Hr', Hrest.
        destruct Hrest as (? & ? & ? & ?). exists c, w', ev. repeat split; assumption.
      + destruct (Hno eq_refl) as (_ & _ & _ & _ & Hb & _). contradiction.
    - destruct (pick_not_accepted _ _ Hacc) as [Hm|[Hm Hg]].
      + rewrite tick_no_click in Hblit |- * by assumption.
        destruct (Z.eq_dec (_reading w) 0) as [Hr|Hr].
        * destruct (_start_readback w) eqn:Hs.
          -- destruct (editor.blit_support inp) eqn:Hb.
             ++ destruct (readback_blit inp w Hr Hs Hb)
                  as (c & w' & ev & Heq & _ & _ & _ & Hs' & Hr' & Hrest).
                rewrite Hzero in Hr', Hrest. cbn in Hr', Hrest.
                destruct Hrest as (? & ? & ? & ?). exists c, w', ev.
                repeat split; assumption.
             ++ rewrite readback_unsupported in Hblit by assumption. now elim Hblit.
          -- rewrite readback_idle in Hblit by assumption. now elim Hblit.
        * destruct (Z_lt_le_dec (editor.render_frame inp) (_reading w)) as [Hf|Hf].
          -- rewrite readback_waiting in Hblit by assumption. now elim Hblit.
          -- rewrite readback_due in Hblit by assumption.
             destruct (decode_spec inp w) as (w3 & ev3 & Heq & _ & _ & _ & Hb & _).
             rewrite Heq in Hblit. contradiction.
      + rewrite tick_rejected in Hblit by assumption. now elim Hblit. }
  destruct Hkey as (c & w' & ev & Heq & -> & Hr & Hs & Hscan & Hout & Hsel).
  rewrite Heq. unfold control_of, final_world, events_of. cbn [fst snd].
  split; [reflexivity|]. split; [unfold readback_state; now rewrite Hr, Hs|].
  split; [assumption|]. split; [assumption|]. split; [assumption|]. split.
  - intros inp' Hm. rewrite tick_no_click by assumption. now apply readback_idle.
  - intros inp' Hacc.
    destruct (tick_accepted inp' w' Hacc) as (c2 & w2 & ev2 & Heq2 & Hfill & _).
    now rewrite Heq2.
Qed.

(** *** A platform without texture blit *)

Lemma readback_state_idle (w : world) :
  readback_state w = Idle <-> _reading w = 0 /\ _start_readback w = false.
Proof.
  unfold readback_state. destruct (_reading w =? 0) eqn:E; cbn.
  - apply Z.eqb_eq in E. destruct (_start_readback w); split; intros H;
      try discriminate; try tauto. destruct H. discriminate.
  - apply Z.eqb_neq in E. split; [discriminate|]. intros [? _]. contradiction.
Qed.

Lemma tick_unsupported_idle (inp : editor.frame_input) (w : world) :
  editor.blit_support inp = false ->
  _reading w = 0 -> _start_readback w = false ->
  _reading (final_world (frame_render inp w)) = 0
  /\ _start_readback (final_world (frame_render inp w)) = false
  /\ selection (final_world (frame_render inp w)) = selection w
  /\ emitted_outcomes (events_of (frame_render inp w)) = []
  /\ count_events is_scan (events_of (frame_render inp w)) = 0%nat
  /\ count_events is_blit (events_of (frame_render inp w)) = 0%nat
  /\ count_events is_warning (events_of (frame_render inp w))
     = (if pick_accepted inp (selection w) then 1 else 0)%nat
  /\ count_events is_fill_pass (events_of (frame_render inp w))
     = (if pick_accepted inp (selection w) then 1 else 0)%nat.
Proof.
  intros Hb Hr Hs. destruct (pick_accepted inp (selection w)) eqn:Hacc.
  - destruct (tick_accepted inp w Hacc) as (c & w' & ev & Heq & Hfill & Hs' & Hno & _).
    destruct (Hno Hb) as (_ & ? & ? & ? & ? & ? & ?).
    rewrite Heq. unfold final_world, events_of. cbn [fst snd]. repeat split; assumption.
  - destruct (tick_not_accepted_idle inp w Hacc Hr Hs) as [-> ->].
    repeat split; assumption.
Qed.

(** C7 (amended): without texture-blit support, every tick of a run that
    starts idle ends idle again; each accepted click still opens the
    identity-buffer pass and logs the capability warning, once per click,
    in its own tick, and no tick blits, scans the staging array or emits an
    outcome, so the selection never changes.  The tick function is total:
    nothing fails. *)
Theorem without_blit_every_click_warns (inps : list editor.frame_input) (w : world) :
  readback_state w = Idle ->
  Forall (fun inp => editor.blit_support inp = false) inps ->
  readback_state (fst (editor.run_frames view_id_bits tex_id_dim inps w)) = Idle
  /\ selection (fst (editor.run_frames view_id_bits tex_id_dim inps w)) = selection w
  /\ emitted_outcomes (snd (editor.run_frames view_id_bits tex_id_dim inps w)) = []
  /\ count_events is_scan (snd (editor.run_frames view_id_bits tex_id_dim inps w)) = 0%nat
  /\ count_events is_blit (snd (editor.run_frames view_id_bits tex_id_dim inps w)) = 0%nat
  /\ count_events is_warning (snd (editor.run_frames view_id_bits tex_id_dim inps w))
     = accepted_clicks inps (selection w)
  /\ count_events is_fill_pass (snd (editor.run_frames view_id_bits tex_id_dim inps w))
     = accepted_clicks inps (selection w).
Proof.
  intros Hidle Hall. revert w Hidle.
  induction Hall as [|inp inps Hb Hall IH]; intros w Hidle.
  - repeat split; assumption.
  - apply readback_state_idle in Hidle as [Hr Hs].
    destruct (tick_unsupported_idle inp w Hb Hr Hs)
      as (Hr' & Hs' & Hsel & Hout & Hscan & Hblit & Hwarn & Hfill).
    cbn [editor.run_frames].
    specialize (IH (final_world (frame_render inp w))
                   (proj2 (readback_state_idle _) (conj Hr' Hs'))).
    destruct (editor.run_frames view_id_bits tex_id_dim inps (final_world (frame_render inp w)))
      as [w' ev'].
    cbn [fst snd] in *. rewrite Hsel in IH.
    destruct IH as (I1 & I2 & I3 & I4 & I5 & I6 & I7).
    rewrite !count_events_app, emitted_outcomes_app, Hout, Hscan, Hblit, Hwarn, Hfill,
      I3, I4, I5, I6, I7.
    unfold accepted_clicks. cbn [filter].
    destruct (pick_accepted inp (selection w)); repeat split; assumption.
Qed.

End tick.

(** ** Instances and counterexamples of the tick statements *)

Lemma click_while_awaiting_fence_witness :
  count_events is_fill_pass
    (events_of (editor.frame_render 16 1 click_at_frame_10 awaiting_frame_11)) = 1%nat
  /\ (count_events is_blit
        (events_of (editor.frame_render 16 1 click_at_frame_10 awaiting_frame_11))
      + count_events is_warning
          (events_of (editor.frame_render 16 1 click_at_frame_10 awaiting_frame_11))
      = 1)%nat
  /\ _start_readback
       (final_world (editor.frame_render 16 1 click_at_frame_10 awaiting_frame_11)) = false
  /\ _reading (final_world (editor.frame_render 16 1 click_at_frame_10 awaiting_frame_11))
     = if editor.blit_support click_at_frame_10
          && negb (editor.fence_reached (editor.read_texture_result click_at_frame_10)
                                        (editor.render_frame click_at_frame_10))
       then editor.read_texture_result click_at_frame_10 else 0.
Proof.
  apply (click_while_awaiting_fence 16 1 click_at_frame_10 awaiting_frame_11).
  - reflexivity.
  - discriminate.
  - reflexivity.
  - reflexivity.
Defined.

(** C1, as stated, fails: at frame 10 a first pick waits for frame 11 and a
    click passes the guards; the tick opens an identity-buffer pass and the
    recorded fence becomes 13. *)
Lemma click_while_awaiting_fence_is_not_dropped :
  editor.mouse_left_pressed click_at_frame_10 = true
  /\ readback_state awaiting_frame_11 = AwaitingFence 11
  /\ editor.render_frame click_at_frame_10 < 11
  /\ count_events is_fill_pass
       (events_of (editor.frame_render 16 1 click_at_frame_10 awaiting_frame_11)) <> 0%nat
  /\ readback_state (final_world (editor.frame_render 16 1 click_at_frame_10 awaiting_frame_11))
     <> readback_state awaiting_frame_11.
Proof.
  repeat split; vm_compute; discriminate.
Qed.

Lemma fence_ahead_witness :
  final_world (editor.frame_render 16 1 quiet_at_frame_15 awaiting_frame_20)
  = awaiting_frame_20
  /\ events_of (editor.frame_render 16 1 quiet_at_frame_15 awaiting_frame_20) = [].
Proof.
  apply (fence_ahead_of_frame_counter 16 1 quiet_at_frame_15 awaiting_frame_20).
  - discriminate.
  - reflexivity.
  - reflexivity.
Defined.

(** C8, as stated, fails: at frame 15 a pick waits for frame 20 and a click
    is accepted; the tick moves the recorded fence to 17. *)
Lemma accepted_click_moves_the_fence :
  readback_state awaiting_frame_20 = AwaitingFence 20
  /\ editor.render_frame click_at_frame_15 < 20
  /\ readback_state (final_world (editor.frame_render 16 1 click_at_frame_15 awaiting_frame_20))
     <> AwaitingFence 20.
Proof.
  repeat split; vm_compute; discriminate.
Qed.

Lemma unscheduled_read_witness :
  control_of (editor.frame_render 16 1 click_read_unscheduled initial_world) = Normal tt
  /\ readback_state (final_world (editor.frame_render 16 1 click_read_unscheduled initial_world))
     = Idle
  /\ count_events is_scan
       (events_of (editor.frame_render 16 1 click_read_unscheduled initial_world)) = 0%nat
  /\ emitted_outcomes
       (events_of (editor.frame_render 16 1 click_read_unscheduled initial_world)) = []
  /\ selection (final_world (editor.frame_render 16 1 click_read_unscheduled initial_world))
     = selection initial_world
  /\ (forall inp', editor.mouse_left_pressed inp' = false ->
        editor.frame_render 16 1 inp'
          (final_world (editor.frame_render 16 1 click_read_unscheduled initial_world))
        = (Normal tt,
           final_world (editor.frame_render 16 1 click_read_unscheduled initial_world), []))
  /\ (forall inp',
        pick_accepted inp'
          (selection (final_world (editor.frame_render 16 1 click_read_unscheduled initial_world)))
        = true ->
        count_events is_fill_pass
          (events_of
             (editor.frame_render 16 1 inp'
                (final_world (editor.frame_render 16 1 click_read_unscheduled initial_world))))
        = 1%nat).
Proof.
  apply (unscheduled_read_returns_to_idle 16 1 click_read_unscheduled initial_world).
  - vm_compute. discriminate.
  - reflexivity.
Defined.

Lemma without_blit_witness :
  readback_state
    (fst (editor.run_frames 16 1 [click_without_blit 10; click_without_blit 11] initial_world))
  = Idle
  /\ selection
       (fst (editor.run_frames 16 1 [click_without_blit 10; click_without_blit 11] initial_world))
     = selection initial_world
  /\ emitted_outcomes
       (snd (editor.run_frames 16 1 [click_without_blit 10; click_without_blit 11] initial_world))
     = []
  /\ count_events is_scan
       (snd (editor.run_frames 16 1 [click_without_blit 10; click_without_blit 11] initial_world))
     = 0%nat
  /\ count_events is_blit
       (snd (editor.run_frames 16 1 [click_without_blit 10; click_without_blit 11] initial_world))
     = 0%nat
  /\ count_events is_warning
       (snd (editor.run_frames 16 1 [click_without_blit 10; click_without_blit 11] initial_world))
     = accepted_clicks [click_without_blit 10; click_without_blit 11] (selection initial_world)
  /\ count_events is_fill_pass
       (snd (editor.run_frames 16 1 [click_without_blit 10; click_without_blit 11] initial_world))
     = accepted_clicks [click_without_blit 10; click_without_blit 11] (selection initial_world).
Proof.
  apply (without_blit_every_click_warns 16 1
           [click_without_blit 10; click_without_blit 11] initial_world).
  - reflexivity.
  - repeat constructor.
Defined.

(** C7, as stated, fails: two accepted clicks without blit support log the
    warning twice, and the second click still opens the identity-buffer
    pass. *)
Lemma second_click_without_blit_warns_again :
  editor.blit_support (click_without_blit 10) = false
  /\ editor.blit_support (click_without_blit 11) = false
  /\ count_events is_warning
       (snd (editor.run_frames 16 1 [click_without_blit 10; click_without_blit 11] initial_world))
     <> 1%nat
  /\ count_events is_fill_pass
       (events_of
          (editor.frame_render 16 1 (click_without_blit 11)
             (final_world (editor.frame_render 16 1 (click_without_blit 10) initial_world))))
     <> 0%nat.
Proof.
  repeat split; vm_compute; discriminate.
Qed.

(** * Further properties *)

(** ** The allocator from any state it can reach *)

Section allocator_runs.

Variable view_id_bits : Z.
Hypothesis view_id_wide : 8 <= view_id_bits.

Lemma allocate_observed_reachable (w : world) :
  0 <= s_index w <= 255 ->
  fst (gfx.allocate_observed view_id_bits w)
  = (next_slot w, next_slot w, if s_index w =? 255 then 1%nat else 0%nat)
  /\ s_index (snd (gfx.allocate_observed view_id_bits w)) = next_slot w + 1
  /\ 0 <= next_slot w <= 254.
Proof.
  intros Hs. unfold gfx.allocate_observed, next_slot. rewrite generate_id_eq.
  destruct w as [si sl r sr sel]. cbn [s_index] in *.
  destruct (si =? 255) eqn:E.
  - cbn. rewrite (wrap_small view_id_bits view_id_wide) by lia. repeat split; lia.
  - apply Z.eqb_neq in E.
    cbn [fst snd gfx.get_pass gets set_s_last_index set_s_index s_index s_last_index
         filter List.length].
    rewrite (wrap_small view_id_bits view_id_wide) by lia. repeat split; lia.
Qed.

Lemma allocate_observed_keeps_range (w : world) :
  0 <= s_index w <= 255 ->
  0 <= s_index (snd (gfx.allocate_observed view_id_bits w)) <= 255.
Proof.
  intros Hs. destruct (allocate_observed_reachable w Hs) as (_ & -> & ?). lia.
Qed.

Lemma after_calls_succ (k : nat) (w : world) :
  after_calls view_id_bits (S k) w
  = snd (gfx.allocate_observed view_id_bits (after_calls view_id_bits k w)).
Proof.
  unfold after_calls. revert w. induction k as [|k IH]; intros w.
  - cbn. destruct (gfx.allocate_observed view_id_bits w). reflexivity.
  - change (gfx.allocate_calls view_id_bits (S (S k)) w)
      with (let (o, w1) := gfx.allocate_observed view_id_bits w in
            let (os, w2) := gfx.allocate_calls view_id_bits (S k) w1 in (o :: os, w2)).
    destruct (gfx.allocate_observed view_id_bits w) as [o w1] eqn:E.
    specialize (IH w1).
    destruct (gfx.allocate_calls view_id_bits (S k) w1) as [os w2] eqn:E2.
    cbn [snd] in *. rewrite IH.
    cbn [gfx.allocate_calls]. rewrite E.
    destruct (gfx.allocate_calls view_id_bits k w1). reflexivity.
Qed.

Lemma after_calls_range (k : nat) (w : world) :
  0 <= s_index w <= 255 -> 0 <= s_index (after_calls view_id_bits k w) <= 255.
Proof.
  intros Hs. induction k as [|k IH]; [exact Hs|].
  rewrite after_calls_succ. now apply allocate_observed_keeps_range.
Qed.

Lemma nth_call_observed (n k : nat) (w : world) :
  (k < n)%nat ->
  nth_call k (fst (gfx.allocate_calls view_id_bits n w))
  = fst (gfx.allocate_observed view_id_bits (after_calls view_id_bits k w)).
Proof.
  unfold nth_call, after_calls. revert k w. induction n as [|n IH]; intros k w Hk; [lia|].
  cbn [gfx.allocate_calls].
  destruct (gfx.allocate_observed view_id_bits w) as [o w1] eqn:E.
  specialize (IH (pred k) w1).
  destruct (gfx.allocate_calls view_id_bits n w1) as [os w2] eqn:E2.
  destruct k as [|k].
  - cbn. now rewrite E.
  - cbn [fst nth]. cbn [pred fst] in IH. rewrite IH by lia.
    cbn [gfx.allocate_calls]. rewrite E.
    destruct (gfx.allocate_calls view_id_bits k w1). reflexivity.
Qed.

(** X1: from any counter value the allocator can hold (0 .. 255), every
    call of a run returns a slot between 0 and 254, [get_pass()] right after
    it reports that slot, a call flushes at most once, and the counter is
    again within 0 .. 255 afterwards. *)
Theorem generate_id_run_invariant (n k : nat) (w : world) :
  0 <= s_index w <= 255 ->
  (k < n)%nat ->
  0 <= issued_slot (nth_call k (fst (gfx.allocate_calls view_id_bits n w))) <= 254
  /\ reported_slot (nth_call k (fst (gfx.allocate_calls view_id_bits n w)))
     = issued_slot (nth_call k (fst (gfx.allocate_calls view_id_bits n w)))
  /\ (flushes_of (nth_call k (fst (gfx.allocate_calls view_id_bits n w))) <= 1)%nat
  /\ 0 <= s_index (after_calls view_id_bits n w) <= 255.
Proof.
  intros Hs Hk. rewrite nth_call_observed by assumption.
  pose proof (after_calls_range k w Hs) as Hr.
  destruct (allocate_observed_reachable _ Hr) as (-> & _ & Hslot).
  unfold issued_slot, reported_slot, flushes_of. cbn [fst snd].
  repeat split; try lia.
  - destruct (_ =? 255); lia.
  - apply (after_calls_range n w Hs).
  - apply (after_calls_range n w Hs).
Qed.

(** Consecutive calls: the later one either flushes and restarts at slot 0,
    or takes the slot after the earlier one. *)
Lemma consecutive_calls (n k : nat) (w : world) :
  0 <= s_index w <= 255 ->
  (S k < n)%nat ->
  let rs := fst (gfx.allocate_calls view_id_bits n w) in
  (flushes_of (nth_call (S k) rs) = 1%nat /\ issued_slot (nth_call (S k) rs) = 0)
  \/ (flushes_of (nth_call (S k) rs) = 0%nat
      /\ issued_slot (nth_call (S k) rs) = issued_slot (nth_call k rs) + 1).
Proof.
  intros Hs Hk rs. subst rs.
  rewrite !nth_call_observed by lia. rewrite after_calls_succ.
  pose proof (after_calls_range k w Hs) as Hr.
  destruct (allocate_observed_reachable _ Hr) as (E1 & E2 & Hslot).
  pose proof (allocate_observed_keeps_range _ Hr) as Hr'.
  destruct (allocate_observed_reachable _ Hr') as (E3 & _ & _).
  rewrite E3, E1. unfold flushes_of, issued_slot. cbn [fst snd].
  set (w1 := snd (gfx.allocate_observed view_id_bits (after_calls view_id_bits k w))) in *.
  assert (Hn : next_slot w1 = if s_index w1 =? 255 then 0 else s_index w1) by reflexivity.
  rewrite Hn, E2.
  destruct (next_slot (after_calls view_id_bits k w) + 1 =? 255); [left|right]; split;
    reflexivity.
Qed.

Lemma stretch_of_calls (n i d : nat) (w : world) :
  0 <= s_index w <= 255 ->
  (i + d < n)%nat ->
  let rs := fst (gfx.allocate_calls view_id_bits n w) in
  (exists k, (i < k <= i + d)%nat /\ flushes_of (nth_call k rs) = 1%nat)
  \/ issued_slot (nth_call (i + d) rs) = issued_slot (nth_call i rs) + Z.of_nat d.
Proof.
  intros Hs Hn rs. induction d as [|d IH].
  - right. rewrite Nat.add_0_r. lia.
  - destruct IH as [(k & Hk & Hf)|IH]; [lia|left; exists k; split; [lia|assumption]|].
    replace (i + S d)%nat with (S (i + d)) in * by lia.
    destruct (consecutive_calls n (i + d) w Hs Hn) as [[Hf _]|[_ Hnext]].
    + left. exists (S (i + d)). split; [lia|exact Hf].
    + right. fold rs in Hnext. rewrite Hnext, IH. lia.
Qed.

(** X2: a slot is never issued twice without a frame flush in between: if
    two calls of a run return the same slot, one of the calls after the
    first, up to and including the second, forced a flush. *)
Theorem no_slot_reuse_without_flush (n i j : nat) (w : world) :
  0 <= s_index w <= 255 ->
  (i < j < n)%nat ->
  issued_slot (nth_call i (fst (gfx.allocate_calls view_id_bits n w)))
  = issued_slot (nth_call j (fst (gfx.allocate_calls view_id_bits n w))) ->
  exists k, (i < k <= j)%nat
            /\ flushes_of (nth_call k (fst (gfx.allocate_calls view_id_bits n w))) = 1%nat.
Proof.
  intros Hs Hij Heq.
  destruct (stretch_of_calls n i (j - i) w Hs ltac:(lia)) as [(k & Hk & Hf)|Hinc].
  - exists k. split; [lia|exact Hf].
  - replace (i + (j - i))%nat with j in Hinc by lia. lia.
Qed.

(** X3: after a call, [render_pass::reset()] resets exactly the views
    0 .. s, where s is the slot the last call returned - the views issued
    since the last flush - and puts both counters back to 0; a second
    [reset()] then resets no view at all. *)
Theorem reset_covers_slots_since_flush (k : nat) (w : world) :
  0 <= s_index w <= 255 ->
  events_of (gfx.reset (after_calls view_id_bits (S k) w))
  = map (fun i => EvResetView (Z.of_nat i))
        (seq 0 (S (Z.to_nat (issued_slot
                               (nth_call k (fst (gfx.allocate_calls view_id_bits (S k) w)))))))
  /\ s_index (final_world (gfx.reset (after_calls view_id_bits (S k) w))) = 0
  /\ s_last_index (final_world (gfx.reset (after_calls view_id_bits (S k) w))) = 0
  /\ events_of (gfx.reset (final_world (gfx.reset (after_calls view_id_bits (S k) w)))) = [].
Proof.
  intros Hs. rewrite nth_call_observed by lia. rewrite after_calls_succ.
  pose proof (after_calls_range k w Hs) as Hr.
  destruct (allocate_observed_reachable _ Hr) as (E1 & E2 & Hslot).
  rewrite E1. unfold issued_slot. cbn [fst].
  set (w1 := snd (gfx.allocate_observed view_id_bits (after_calls view_id_bits k w))) in *.
  assert (Hreset : forall w', gfx.reset w'
            = (Normal tt, set_s_last_index 0 (set_s_index 0 w'),
               map EvResetView (map Z.of_nat (seq 0 (Z.to_nat (s_index w')))))).
  { intros w'. unfold gfx.reset, bind, gets, modify. rewrite for_each_emit.
    cbn. now rewrite !app_nil_r. }
  rewrite !Hreset. unfold events_of, final_world. cbn [fst snd].
  rewrite E2, map_map.
  replace (Z.to_nat (next_slot (after_calls view_id_bits k w) + 1))
    with (S (Z.to_nat (next_slot (after_calls view_id_bits k w)))) by lia.
  repeat split.
Qed.

End allocator_runs.

Lemma generate_id_run_witness :
  0 <= issued_slot (nth_call 300 (fst (gfx.allocate_calls 16 400 (mkWorld 200 199 0 false None)))) <= 254
  /\ reported_slot (nth_call 300 (fst (gfx.allocate_calls 16 400 (mkWorld 200 199 0 false None))))
     = issued_slot (nth_call 300 (fst (gfx.allocate_calls 16 400 (mkWorld 200 199 0 false None))))
  /\ (flushes_of (nth_call 300 (fst (gfx.allocate_calls 16 400 (mkWorld 200 199 0 false None)))) <= 1)%nat
  /\ 0 <= s_index (after_calls 16 400 (mkWorld 200 199 0 false None)) <= 255.
Proof.
  apply (generate_id_run_invariant 16); cbn; lia.
Defined.

Lemma no_slot_reuse_witness :
  exists k, (3 < k <= 258)%nat
            /\ flushes_of (nth_call k (fst (gfx.allocate_calls 16 300 initial_world))) = 1%nat.
Proof.
  apply (no_slot_reuse_without_flush 16); [lia| cbn; lia | lia | vm_compute; reflexivity].
Defined.

Lemma reset_covers_witness :
  events_of (gfx.reset (after_calls 16 3 initial_world))
  = map (fun i => EvResetView (Z.of_nat i))
        (seq 0 (S (Z.to_nat (issued_slot
                               (nth_call 2 (fst (gfx.allocate_calls 16 3 initial_world)))))))
  /\ s_index (final_world (gfx.reset (after_calls 16 3 initial_world))) = 0
  /\ s_last_index (final_world (gfx.reset (after_calls 16 3 initial_world))) = 0
  /\ events_of (gfx.reset (final_world (gfx.reset (after_calls 16 3 initial_world)))) = [].
Proof.
  apply (reset_covers_slots_since_flush 16); cbn; lia.
Defined.

(** ** The colour of an index beyond 24 bits *)

Lemma color_id_mod (i : Z) : editor.color_id i = editor.color_id (i mod 2 ^ 24).
Proof.
  change (2 ^ 24) with 16777216. rewrite !color_id_channels.
  pose proof (Z.div_mod i 16777216 ltac:(lia)) as Hi.
  set (q := i / 16777216) in *. set (r := i mod 16777216) in *.
  rewrite Hi. f_equal; [f_equal|].
  - replace (16777216 * q + r) with (r + (q * 65536) * 256) by lia.
    now rewrite Z.mod_add by lia.
  - replace (16777216 * q + r) with (r + (q * 65536) * 256) by lia.
    rewrite Z.div_add by lia.
    replace (r / 256 + q * 65536) with (r / 256 + (q * 256) * 256) by lia.
    now rewrite Z.mod_add by lia.
  - replace (16777216 * q + r) with (r + (q * 256) * 65536) by lia.
    rewrite Z.div_add by lia. now rewrite Z.mod_add by lia.
Qed.

(** X4: the colour keeps the low 24 bits of an entity index and nothing
    else: the key read back from the colour of index [i] is [i mod 2^24];
    two indices get the same colour exactly when they agree modulo 2^24;
    and an index is drawn in the background colour exactly when it is a
    multiple of 2^24 (index 0 among them). *)
Theorem color_id_keeps_low_24_bits (i j : Z) :
  byte_color (editor.color_id i)
  /\ decode_color (editor.color_id i) = i mod 2 ^ 24
  /\ (editor.color_id i = editor.color_id j <-> i mod 2 ^ 24 = j mod 2 ^ 24)
  /\ (editor.color_id i = background <-> i mod 2 ^ 24 = 0).
Proof.
  assert (Hdec : forall n, decode_color (editor.color_id n) = n mod 2 ^ 24).
  { intros n. rewrite color_id_mod. apply decode_color_id.
    apply Z.mod_pos_bound. reflexivity. }
  split; [apply color_id_byte_color|]. split; [apply Hdec|]. split.
  - split; intros H.
    + rewrite <- !Hdec. now rewrite H.
    + rewrite (color_id_mod i), (color_id_mod j). now rewrite H.
  - split; intros H.
    + rewrite <- Hdec, H. reflexivity.
    + rewrite color_id_mod, H. reflexivity.
Qed.

(** ** The histogram *)

(** X5: after the scan of a [tex_id_dim] x [tex_id_dim] staging array the
    map is in ascending key order, it holds a key exactly when some
    non-background texel has that key, the value stored is the number of
    such texels, and [max_amount] is the largest of these numbers (zero
    when there is none). *)
Theorem scan_counts_every_key (tex_id_dim : Z) (d3d9 : bool) (x : list Byte.byte) (k : Z) :
  id_buffer tex_id_dim x ->
  ascending (fst (editor.scan d3d9 x ([], 0)))
  /\ map_find k (fst (editor.scan d3d9 x ([], 0)))
     = (if (key_count k (texels d3d9 x) =? 0)%nat then None
        else Some (Z.of_nat (key_count k (texels d3d9 x))))
  /\ Z.of_nat (key_count k (texels d3d9 x)) <= snd (editor.scan d3d9 x ([], 0))
  /\ (snd (editor.scan d3d9 x ([], 0)) = 0
      \/ exists k', Z.of_nat (key_count k' (texels d3d9 x)) = snd (editor.scan d3d9 x ([], 0))).
Proof.
  intros Hbuf. destruct (scan_hist_ok tex_id_dim d3d9 x Hbuf) as (H1 & H2 & H3 & H4).
  repeat split; auto.
Qed.

Lemma scan_counts_witness :
  ascending (fst (editor.scan true tied_data ([], 0)))
  /\ map_find 9 (fst (editor.scan true tied_data ([], 0)))
     = (if (key_count 9 (texels true tied_data) =? 0)%nat then None
        else Some (Z.of_nat (key_count 9 (texels true tied_data))))
  /\ Z.of_nat (key_count 9 (texels true tied_data)) <= snd (editor.scan true tied_data ([], 0))
  /\ (snd (editor.scan true tied_data ([], 0)) = 0
      \/ exists k', Z.of_nat (key_count k' (texels true tied_data))
                    = snd (editor.scan true tied_data ([], 0))).
Proof.
  apply (scan_counts_every_key 2 true tied_data 9).
  vm_compute. repeat split; congruence.
Defined.

(** ** Which outcome the decode emits *)

Lemma all_background_key_count (l : list (Z * Z * Z)) :
  (forall k, key_count k l = 0%nat) -> Forall byte_color l ->
  Forall (fun c => c = background) l.
Proof.
  intros Hz Hb. induction Hb as [|c l Hc Hb IH]; [constructor|].
  assert (Hc0 : c = background).
  { destruct (editor.is_background c) eqn:E; [now apply is_background_true|].
    specialize (Hz (decode_color c)). unfold key_count in Hz. cbn [filter] in Hz.
    rewrite E, Z.eqb_refl in Hz. discriminate. }
  constructor; [assumption|]. apply IH. intros k. specialize (Hz k).
  unfold key_count in *. cbn [filter] in Hz.
  destruct (negb (editor.is_background c) && (decode_color c =? k)); [discriminate|assumption].
Qed.

(** X6: the decode of a [tex_id_dim] x [tex_id_dim] staging array clears
    the selection exactly when every texel is background; with at least one
    other texel it never emits Deselect. *)
Theorem deselect_iff_all_background
    (tex_id_dim : Z) (inp : editor.frame_input) (w : world) :
  id_buffer tex_id_dim (editor.blit_data inp) ->
  (In Deselect (emitted_outcomes (events_of (editor.decode inp w)))
   <-> Forall (fun c => c = background)
              (texels (editor.renderer_is_d3d9 inp) (editor.blit_data inp))).
Proof.
  intros Hbuf. split.
  - intros Hin. rewrite decode_eq in Hin.
    pose proof (winning_key_spec tex_id_dim (editor.renderer_is_d3d9 inp) _ Hbuf) as Hspec.
    destruct (editor.winning_key _ _) as [k|].
    + destruct (_ && _); cbn in Hin; [destruct Hin as [?|[]]; discriminate|contradiction].
    + apply all_background_key_count; [assumption|apply texels_byte_color].
  - intros Hall. rewrite decode_eq. unfold editor.winning_key.
    rewrite (scan_all_background _ _ Hall). cbn. now left.
Qed.

Lemma deselect_iff_witness :
  In Deselect (emitted_outcomes (events_of (editor.decode black_input entity_7_selected)))
  <-> Forall (fun c => c = background)
             (texels (editor.renderer_is_d3d9 black_input) (editor.blit_data black_input)).
Proof.
  apply (deselect_iff_all_background 1 black_input entity_7_selected).
  vm_compute. repeat split; congruence.
Defined.

(** X7: the decode selects index [k] only if the entity-component system
    reports [k] valid and its handle valid, [k] lies in [1, 2^24 - 1], some
    texel of the array carries the colour of [k], and no key fills more
    texels than [k]; it is then the only outcome and [k] becomes the
    selected object. *)
Theorem select_is_live_and_present
    (tex_id_dim : Z) (inp : editor.frame_input) (w : world) (k : Z) :
  id_buffer tex_id_dim (editor.blit_data inp) ->
  In (Select k) (emitted_outcomes (events_of (editor.decode inp w))) ->
  editor.ecs_valid_index inp k = true
  /\ editor.ecs_get_valid inp k = true
  /\ 1 <= k < 2 ^ 24
  /\ In (editor.color_id k) (texels (editor.renderer_is_d3d9 inp) (editor.blit_data inp))
  /\ (forall k', (key_count k' (texels (editor.renderer_is_d3d9 inp) (editor.blit_data inp))
                  <= key_count k (texels (editor.renderer_is_d3d9 inp) (editor.blit_data inp)))%nat)
  /\ emitted_outcomes (events_of (editor.decode inp w)) = [Select k]
  /\ selection (final_world (editor.decode inp w)) = Some k.
Proof.
  intros Hbuf Hin. rewrite decode_eq in Hin |- *.
  pose proof (winning_key_spec tex_id_dim (editor.renderer_is_d3d9 inp) _ Hbuf) as Hspec.
  pose proof (texels_byte_color (editor.renderer_is_d3d9 inp) (editor.blit_data inp)) as Hb.
  destruct (editor.winning_key _ _) as [k0|].
  - destruct (editor.ecs_valid_index inp k0) eqn:Hv, (editor.ecs_get_valid inp k0) eqn:Hg;
      cbn in Hin; try contradiction.
    destruct Hin as [[= ->]|[]]. destruct Hspec as (Hpos & Hmax & _).
    destruct (key_count_pos_texel _ _ Hpos) as (c & Hc & Hnb & Hck).
    assert (Hcb : byte_color c) by (rewrite Forall_forall in Hb; auto).
    destruct c as [[rr gg] bb]. cbn in Hcb.
    assert (Hcol : editor.color_id k = (rr, gg, bb)).
    { rewrite <- Hck. apply color_id_decode; lia. }
    assert (Hrange : 1 <= k < 2 ^ 24).
    { rewrite <- Hck. unfold decode_color. rewrite hash_key_bytes by lia.
      change (2 ^ 24) with 16777216.
      assert (rr <> 0 \/ gg <> 0 \/ bb <> 0).
      { destruct (Z.eq_dec rr 0), (Z.eq_dec gg 0), (Z.eq_dec bb 0); subst; auto. }
      lia. }
    rewrite Hv, Hg, Hcol. cbn. repeat split; auto; lia.
  - destruct (_ =? 0); cbn in Hin; [destruct Hin as [?|[]]; discriminate|contradiction].
Qed.

Lemma select_is_live_witness :
  editor.ecs_valid_index majority_input 5 = true
  /\ editor.ecs_get_valid majority_input 5 = true
  /\ 1 <= 5 < 2 ^ 24
  /\ In (editor.color_id 5)
        (texels (editor.renderer_is_d3d9 majority_input) (editor.blit_data majority_input))
  /\ (forall k', (key_count k' (texels (editor.renderer_is_d3d9 majority_input)
                                       (editor.blit_data majority_input))
                  <= key_count 5 (texels (editor.renderer_is_d3d9 majority_input)
                                         (editor.blit_data majority_input)))%nat)
  /\ emitted_outcomes (events_of (editor.decode majority_input entity_7_selected)) = [Select 5]
  /\ selection (final_world (editor.decode majority_input entity_7_selected)) = Some 5.
Proof.
  apply (select_is_live_and_present 2 majority_input entity_7_selected 5).
  - vm_compute. repeat split; congruence.
  - vm_compute. now left.
Defined.

(** ** What the decode does not depend on *)

Lemma key_count_permutation (k : Z) (l1 l2 : list (Z * Z * Z)) :
  Permutation l1 l2 -> key_count k l1 = key_count k l2.
Proof.
  unfold key_count. induction 1 as [|c l1 l2 _ IH|c1 c2 l|l1 l2 l3 _ IH1 _ IH2].
  - reflexivity.
  - cbn [filter]. destruct (_ && _); cbn; now rewrite IH.
  - cbn [filter].
    destruct (negb (editor.is_background c1) && _), (negb (editor.is_background c2) && _);
      reflexivity.
  - now rewrite IH1.
Qed.

(** X8: the key the decode settles on depends on how many texels each
    colour fills, not on where they lie: two [tex_id_dim] x [tex_id_dim]
    staging arrays whose texels are a rearrangement of each other give the
    same winning key. *)
Theorem winning_key_ignores_texel_order
    (tex_id_dim : Z) (d3d9 : bool) (x1 x2 : list Byte.byte) :
  id_buffer tex_id_dim x1 -> id_buffer tex_id_dim x2 ->
  Permutation (texels d3d9 x1) (texels d3d9 x2) ->
  editor.winning_key d3d9 x1 = editor.winning_key d3d9 x2.
Proof.
  intros H1 H2 Hp.
  pose proof (winning_key_spec tex_id_dim d3d9 x1 H1) as S1.
  pose proof (winning_key_spec tex_id_dim d3d9 x2 H2) as S2.
  assert (Hc : forall k, key_count k (texels d3d9 x1) = key_count k (texels d3d9 x2))
    by (intros k; now apply key_count_permutation).
  destruct (editor.winning_key d3d9 x1) as [k1|], (editor.winning_key d3d9 x2) as [k2|].
  - destruct S1 as (P1 & M1 & L1), S2 as (P2 & M2 & L2).
    assert (Heq : key_count k1 (texels d3d9 x1) = key_count k2 (texels d3d9 x1)).
    { specialize (M1 k2). specialize (M2 k1). rewrite <- !Hc in M2. lia. }
    f_equal. apply Z.le_antisymm.
    + apply L1. now rewrite Heq.
    + apply L2. rewrite <- !Hc. now rewrite Heq.
  - destruct S1 as (P1 & _). rewrite Hc, S2 in P1. now elim P1.
  - destruct S2 as (P2 & _). rewrite <- Hc, S1 in P2. now elim P2.
  - reflexivity.
Qed.

Lemma winning_key_order_witness :
  editor.winning_key false shuffled_a = editor.winning_key false shuffled_b.
Proof.
  apply (winning_key_ignores_texel_order 2 false shuffled_a shuffled_b).
  - vm_compute. repeat split; congruence.
  - vm_compute. repeat split; congruence.
  - cbn. apply (Permutation_cons_append [_; _; _]).
Defined.

(** X9: on Direct3D9 the scan reads a staging array as the other renderers
    read the array with the first and third byte of every texel exchanged:
    same histogram, same largest count, same winning key. *)
Theorem d3d9_scan_is_scan_of_swapped
    (x : list Byte.byte) (st : std_map * Z) :
  editor.scan true x st = editor.scan false (swap_rb x) st
  /\ editor.winning_key true x = editor.winning_key false (swap_rb x)
  /\ swap_rb (swap_rb x) = x.
Proof.
  assert (Hscan : forall st', editor.scan true x st' = editor.scan false (swap_rb x) st').
  { induction x as [x Hx|x0 x1 x2 aa x' IH] using four_bytes_ind; intros st'.
    - short_buffer x Hx; reflexivity.
    - cbn [swap_rb editor.scan]. apply IH. }
  split; [apply Hscan|]. split.
  - unfold editor.winning_key. now rewrite Hscan.
  - clear. induction x as [x Hx|x0 x1 x2 aa x' IH] using four_bytes_ind.
    + short_buffer x Hx; reflexivity.
    + cbn [swap_rb]. now rewrite IH.
Qed.

(** X10: the alpha byte of a texel is never looked at: overwriting every
    alpha byte of the staging array with any value leaves the histogram,
    the largest count and the winning key as they were. *)
Theorem scan_ignores_alpha
    (d3d9 : bool) (a : Byte.byte) (x : list Byte.byte) (st : std_map * Z) :
  editor.scan d3d9 (set_alpha a x) st = editor.scan d3d9 x st
  /\ editor.winning_key d3d9 (set_alpha a x) = editor.winning_key d3d9 x.
Proof.
  assert (Hscan : forall st', editor.scan d3d9 (set_alpha a x) st' = editor.scan d3d9 x st').
  { induction x as [x Hx|x0 x1 x2 aa x' IH] using four_bytes_ind; intros st'.
    - short_buffer x Hx; reflexivity.
    - cbn [set_alpha editor.scan]. apply IH. }
  split; [apply Hscan|]. unfold editor.winning_key. now rewrite Hscan.
Qed.

(** ** Outcomes and the selection *)

Lemma bind_gets {A B} (f : world -> A) (k : A -> M B) (w : world) :
  bind (gets f) k w = k (f w) w.
Proof. unfold bind, gets. destruct (k (f w) w) as [[c w2] e2]. reflexivity. Qed.

Lemma bind_modify {B} (f : world -> world) (k : unit -> M B) (w : world) :
  bind (modify f) k w = k tt (f w).
Proof. unfold bind, modify. destruct (k tt (f w)) as [[c w2] e2]. reflexivity. Qed.

(** What one run of the decode block leaves behind. *)
Lemma decode_outcome (inp : editor.frame_input) (w : world) :
  exists w3 ev3,
    editor.decode inp w = (Normal tt, w3, ev3)
    /\ count_events is_scan ev3 = 1%nat /\ _reading w3 = 0
    /\ ((emitted_outcomes ev3 = [] /\ selection w3 = selection w)
        \/ (exists k, emitted_outcomes ev3 = [Select k] /\ selection w3 = Some k
                      /\ editor.ecs_valid_index inp k = true
                      /\ editor.ecs_get_valid inp k = true)
        \/ (emitted_outcomes ev3 = [Deselect] /\ selection w3 = None)).
Proof.
  rewrite decode_eq.
  destruct (editor.winning_key _ _) as [k|].
  - destruct (editor.ecs_valid_index inp k) eqn:Hv, (editor.ecs_get_valid inp k) eqn:Hg;
      cbn [andb]; do 2 eexists; (split; [reflexivity|]); repeat split;
      try (left; split; reflexivity).
    right; left. exists k. repeat split; assumption.
  - destruct (_ =? 0); do 2 eexists; (split; [reflexivity|]); repeat split.
    + right; right. split; reflexivity.
    + left. split; reflexivity.
Qed.

Section tick_runs.

Variable view_id_bits : Z.
Variable tex_id_dim : Z.

Local Abbreviation frame_render := (editor.frame_render view_id_bits tex_id_dim).
Local Abbreviation run_frames := (editor.run_frames view_id_bits tex_id_dim).
Local Abbreviation readback := (editor.readback view_id_bits).

(** The read-back blocks when a blit is pending and supported: the blit,
    then the decode if the frame number the read returned is already
    reached. *)
Lemma readback_blit_then_decode (inp : editor.frame_input) (w : world) :
  _reading w = 0 -> _start_readback w = true -> editor.blit_support inp = true ->
  exists w2 ev2,
    selection w2 = selection w /\ _reading w2 = editor.read_texture_result inp
    /\ emitted_outcomes ev2 = [] /\ count_events is_scan ev2 = 0%nat
    /\ readback inp w
       = if editor.fence_reached (editor.read_texture_result inp) (editor.render_frame inp)
         then (Normal tt, final_world (editor.decode inp w2),
               ev2 ++ events_of (editor.decode inp w2))
         else (Normal tt, w2, ev2).
Proof.
  intros Hr Hs Hb. rewrite readback_blocks, Hr, Hs. cbn [Z.eqb andb when].
  destruct (start_readback_supported view_id_bits inp w Hb)
    as (w2 & ev2 & Heq & Hr2 & Hs2 & Hsel2 & Hf2 & Hb2 & Hw2 & Hsc2 & Ho2).
  exists w2, ev2. rewrite Heq, Hr2.
  repeat split; try assumption.
  destruct (editor.fence_reached _ _); cbn [when].
  - destruct (decode_outcome inp w2) as (w3 & ev3 & Heq3 & _). rewrite Heq3. reflexivity.
  - cbn [ret]. now rewrite app_nil_r.
Qed.

(** Every tick either emits nothing and keeps the selection, or ends with
    one run of the decode block. *)
Lemma tick_outcome (inp : editor.frame_input) (w : world) :
  (emitted_outcomes (events_of (frame_render inp w)) = []
   /\ count_events is_scan (events_of (frame_render inp w)) = 0%nat
   /\ selection (final_world (frame_render inp w)) = selection w)
  \/ (exists w2 ev12,
        selection w2 = selection w
        /\ emitted_outcomes ev12 = [] /\ count_events is_scan ev12 = 0%nat
        /\ editor.fence_reached (_reading w2) (editor.render_frame inp) = true
        /\ frame_render inp w
           = (Normal tt, final_world (editor.decode inp w2),
              ev12 ++ events_of (editor.decode inp w2))).
Proof.
  destruct (editor.mouse_left_pressed inp) eqn:Hm.
  - destruct (pick_guards inp (selection w)) eqn:Hg.
    + rewrite frame_render_blocks, Hm. cbn [when].
      destruct (pick_request_accepted view_id_bits tex_id_dim inp w Hg)
        as (w1 & ev1 & Heq & Hr1 & Hs1 & Hsel1 & _ & _ & _ & Hsc1 & Ho1).
      rewrite Heq.
      destruct (editor.blit_support inp) eqn:Hb.
      * destruct (readback_blit_then_decode inp w1 Hr1 Hs1 Hb)
          as (w2 & ev2 & Hsel2 & Hr2 & Ho2 & Hsc2 & Heq2).
        rewrite Heq2.
        destruct (editor.fence_reached _ _) eqn:Hf.
        -- right. exists w2, (ev1 ++ ev2). rewrite Hr2, app_assoc.
           rewrite emitted_outcomes_app, count_events_app, Ho1, Ho2, Hsc1, Hsc2.
           repeat split; try assumption. congruence.
        -- left. unfold events_of, final_world. cbn [fst snd].
           rewrite emitted_outcomes_app, count_events_app, Ho1, Ho2, Hsc1, Hsc2.
           repeat split. congruence.
      * rewrite (readback_unsupported view_id_bits inp w1 Hr1 Hs1 Hb).
        left. unfold events_of, final_world. cbn [fst snd].
        rewrite emitted_outcomes_app, count_events_app, Ho1, Hsc1. repeat split. assumption.
    + rewrite (tick_rejected view_id_bits tex_id_dim inp w Hm Hg). left. repeat split.
  - rewrite (tick_no_click view_id_bits tex_id_dim inp w Hm).
    destruct (Z.eq_dec (_reading w) 0) as [Hr|Hr].
    + destruct (_start_readback w) eqn:Hs.
      * destruct (editor.blit_support inp) eqn:Hb.
        -- destruct (readback_blit_then_decode inp w Hr Hs Hb)
             as (w2 & ev2 & Hsel2 & Hr2 & Ho2 & Hsc2 & Heq2).
           rewrite Heq2.
           destruct (editor.fence_reached _ _) eqn:Hf.
           ++ right. exists w2, ev2. rewrite Hr2. repeat split; assumption.
           ++ left. repeat split; assumption.
        -- rewrite (readback_unsupported view_id_bits inp w Hr Hs Hb). left. repeat split.
      * rewrite (readback_idle view_id_bits inp w Hr Hs). left. repeat split.
    + destruct (Z_lt_le_dec (editor.render_frame inp) (_reading w)) as [Hf|Hf].
      * rewrite (readback_waiting view_id_bits inp w Hr Hf). left. repeat split.
      * rewrite (readback_due view_id_bits inp w Hr Hf). right. exists w, [].
        repeat split.
        -- unfold editor.fence_reached. apply andb_true_iff. split.
           ++ apply negb_true_iff. now apply Z.eqb_neq.
           ++ now apply Z.leb_le.
        -- destruct (decode_outcome inp w) as (w3 & ev3 & Heq3 & _). rewrite Heq3.
           reflexivity.
Qed.

(** X12: a tick emits at most one selection outcome, and only at the end of
    a tick that scanned the staging array once; the selected object after
    the tick is the index of a Select (an index the entity-component system
    reports live), nothing after a Deselect, and what it was before when
    there is no outcome. *)
Theorem one_outcome_per_tick (inp : editor.frame_input) (w : world) :
  (emitted_outcomes (events_of (frame_render inp w)) = []
   /\ selection (final_world (frame_render inp w)) = selection w)
  \/ (count_events is_scan (events_of (frame_render inp w)) = 1%nat
      /\ _reading (final_world (frame_render inp w)) = 0
      /\ ((exists k, emitted_outcomes (events_of (frame_render inp w)) = [Select k]
                     /\ selection (final_world (frame_render inp w)) = Some k
                     /\ editor.ecs_valid_index inp k = true
                     /\ editor.ecs_get_valid inp k = true)
          \/ (emitted_outcomes (events_of (frame_render inp w)) = [Deselect]
              /\ selection (final_world (frame_render inp w)) = None))).
Proof.
  destruct (tick_outcome inp w) as [(Ho & _ & Hsel)|(w2 & ev12 & Hsel & Ho & Hsc & _ & Heq)].
  - left. split; assumption.
  - rewrite Heq. unfold events_of at 1 2 3 4, final_world at 1 2 3 4. cbn [fst snd].
    destruct (decode_outcome inp w2)
      as (w3 & ev3 & Heq3 & Hsc3 & Hr3 & [(Ho3 & Hs3)|[(k & Ho3 & Hs3 & Hv & Hg)|(Ho3 & Hs3)]]);
      rewrite Heq3; unfold events_of, final_world; cbn [fst snd];
      rewrite emitted_outcomes_app, count_events_app, Ho, Hsc, Ho3, Hsc3.
    + left. split; [reflexivity|congruence].
    + right. repeat split; try assumption. left. exists k. repeat split; assumption.
    + right. repeat split; try assumption. right. split; [reflexivity|assumption].
Qed.

(** ** Runs of ticks *)

Lemma tick_accounting (inp : editor.frame_input) (w : world) :
  _start_readback w = false ->
  _start_readback (final_world (frame_render inp w)) = false
  /\ (count_events is_blit (events_of (frame_render inp w))
      + count_events is_warning (events_of (frame_render inp w))
      = count_events is_fill_pass (events_of (frame_render inp w)))%nat
  /\ count_events is_fill_pass (events_of (frame_render inp w))
     = b2n (pick_accepted inp (selection w))
  /\ count_events is_blit (events_of (frame_render inp w))
     = b2n (pick_accepted inp (selection w) && editor.blit_support inp).
Proof.
  intros Hs. destruct (pick_accepted inp (selection w)) eqn:Hacc.
  - destruct (tick_accepted view_id_bits tex_id_dim inp w Hacc)
      as (c & w' & ev & Heq & Hfill & Hs' & Hno & Hyes).
    rewrite Heq. unfold events_of, final_world. cbn [fst snd].
    destruct (editor.blit_support inp).
    + destruct (Hyes eq_refl) as (Hb & Hw & _). rewrite Hb, Hw, Hfill. repeat split; assumption.
    + destruct (Hno eq_refl) as (_ & _ & _ & Hw & Hb & _). rewrite Hb, Hw, Hfill.
      repeat split; assumption.
  - destruct (pick_not_accepted _ _ Hacc) as [Hm|[Hm Hg]].
    + rewrite (tick_no_click view_id_bits tex_id_dim inp w Hm).
      destruct (Z.eq_dec (_reading w) 0) as [Hr|Hr].
      * rewrite (readback_idle view_id_bits inp w Hr Hs). repeat split; assumption.
      * destruct (Z_lt_le_dec (editor.render_frame inp) (_reading w)) as [Hf|Hf].
        -- rewrite (readback_waiting view_id_bits inp w Hr Hf). repeat split; assumption.
        -- rewrite (readback_due view_id_bits inp w Hr Hf).
           destruct (decode_spec inp w) as (w3 & ev3 & Heq & _ & Hs3 & Hf3 & Hb3 & Hw3 & _).
           rewrite Heq. unfold events_of, final_world. cbn [fst snd].
           rewrite Hf3, Hb3, Hw3. repeat split. congruence.
    + rewrite (tick_rejected view_id_bits tex_id_dim inp w Hm Hg). repeat split; assumption.
Qed.

(** X11: started with no blit pending, a run of ticks never leaves one
    pending: the blit step runs in the tick of the click, so between ticks
    the machine is idle or waiting for a fence.  Over the whole run, every
    identity-buffer pass is matched by exactly one blit or one capability
    warning. *)
Theorem no_blit_pending_between_ticks (inps : list editor.frame_input) (w : world) :
  _start_readback w = false ->
  _start_readback (fst (run_frames inps w)) = false
  /\ readback_state (fst (run_frames inps w)) <> BlitRequested
  /\ (count_events is_blit (snd (run_frames inps w))
      + count_events is_warning (snd (run_frames inps w))
      = count_events is_fill_pass (snd (run_frames inps w)))%nat.
Proof.
  revert w. induction inps as [|inp inps IH]; intros w Hs.
  - cbn. split; [assumption|]. split; [|reflexivity].
    unfold readback_state. rewrite Hs. destruct (negb _); discriminate.
  - destruct (tick_accounting inp w Hs) as (Hs' & Hacc & _).
    cbn [editor.run_frames]. specialize (IH _ Hs').
    destruct (editor.run_frames view_id_bits tex_id_dim inps (final_world (frame_render inp w)))
      as [w' ev']. cbn [fst snd] in *.
    destruct IH as (I1 & I2 & I3). rewrite !count_events_app.
    repeat split; try assumption. lia.
Qed.

(** X13: a tick whose click is rejected by a guard is invisible: the
    function returns before the read-back blocks, so even a pending blit or
    a decode that is due is left for a later tick, and the run goes on as if
    the tick had not happened. *)
Theorem rejected_click_tick_is_skipped
    (inp : editor.frame_input) (rest : list editor.frame_input) (w : world) :
  editor.mouse_left_pressed inp = true ->
  pick_guards inp (selection w) = false ->
  frame_render inp w = (Returned, w, [])
  /\ run_frames (inp :: rest) w = run_frames rest w.
Proof.
  intros Hm Hg. pose proof (tick_rejected view_id_bits tex_id_dim inp w Hm Hg) as Heq.
  split; [exact Heq|]. cbn [editor.run_frames]. rewrite Heq.
  unfold final_world, events_of. cbn [fst snd].
  destruct (editor.run_frames view_id_bits tex_id_dim rest w). reflexivity.
Qed.

(** X14: an accepted click starts from scratch: the tick's calls and the
    state after it do not depend on what [_reading] and [_start_readback]
    held before, so an outstanding read-back is discarded whether or
    not its fence had been reached. *)
Theorem accepted_click_forgets_readback
    (inp : editor.frame_input) (w : world) (reading : Z) (start : bool) :
  pick_accepted inp (selection w) = true ->
  frame_render inp (set_start_readback start (set_reading reading w)) = frame_render inp w.
Proof.
  intros Hacc. apply pick_accepted_split in Hacc as [Hm Hg].
  rewrite !frame_render_blocks, Hm. cbn [when].
  assert (Heq : editor.pick_request view_id_bits tex_id_dim inp
                  (set_start_readback start (set_reading reading w))
                = editor.pick_request view_id_bits tex_id_dim inp w).
  { unfold pick_guards in Hg. unfold editor.pick_request.
    rewrite !bind_gets.
    change (selection (set_start_readback start (set_reading reading w))) with (selection w).
    destruct (editor.imguizmo_is_over inp && _); [discriminate|].
    destruct (editor.editor_camera_valid inp); [|discriminate].
    destruct (editor.has_camera_component inp); [|discriminate].
    destruct (editor.near_unproject_ok inp); [|discriminate].
    destruct (editor.far_unproject_ok inp); [|discriminate].
    cbn [negb orb]. rewrite !bind_modify. reflexivity. }
  now rewrite Heq.
Qed.

End tick_runs.

Lemma rejected_click_witness :
  editor.frame_render 16 1 click_over_gizmo awaiting_frame_20
  = (Returned, awaiting_frame_20, [])
  /\ editor.run_frames 16 1 [click_over_gizmo; quiet_tick 25] awaiting_frame_20
     = editor.run_frames 16 1 [quiet_tick 25] awaiting_frame_20.
Proof.
  apply (rejected_click_tick_is_skipped 16 1 click_over_gizmo [quiet_tick 25] awaiting_frame_20);
    reflexivity.
Defined.

Lemma accepted_click_forgets_witness :
  editor.frame_render 16 1 click_at_frame_15
    (set_start_readback true (set_reading 3 awaiting_frame_20))
  = editor.frame_render 16 1 click_at_frame_15 awaiting_frame_20.
Proof.
  apply (accepted_click_forgets_readback 16 1 click_at_frame_15 awaiting_frame_20 3 true).
  reflexivity.
Defined.

Lemma no_blit_pending_witness :
  _start_readback
    (fst (editor.run_frames 16 1 [click_at_frame_10; quiet_tick 11; click_without_blit 12]
            initial_world)) = false
  /\ readback_state
       (fst (editor.run_frames 16 1 [click_at_frame_10; quiet_tick 11; click_without_blit 12]
               initial_world)) <> BlitRequested
  /\ (count_events is_blit
        (snd (editor.run_frames 16 1 [click_at_frame_10; quiet_tick 11; click_without_blit 12]
                initial_world))
      + count_events is_warning
          (snd (editor.run_frames 16 1 [click_at_frame_10; quiet_tick 11; click_without_blit 12]
                  initial_world))
      = count_events is_fill_pass
          (snd (editor.run_frames 16 1 [click_at_frame_10; quiet_tick 11; click_without_blit 12]
                  initial_world)))%nat.
Proof.
  apply (no_blit_pending_between_ticks 16 1). reflexivity.
Defined.

(** ** A whole pick, from the click to the outcome *)

Lemma majority_winning_key
    (tex_id_dim A : Z) (d3d9 : bool) (x : list Byte.byte) :
  id_buffer tex_id_dim x ->
  0 <= A < 2 ^ 24 ->
  editor.color_id A <> background ->
  (forall c, c <> background -> c <> editor.color_id A ->
     (texel_count c (texels d3d9 x) < texel_count (editor.color_id A) (texels d3d9 x))%nat) ->
  editor.winning_key d3d9 x = Some A.
Proof.
  intros Hbuf HA Hnb Hmaj.
  pose proof (texels_byte_color d3d9 x) as Hbytes.
  pose proof (color_id_byte_color A) as HcA.
  pose proof (decode_color_id A HA) as HdA.
  pose proof (winning_key_spec tex_id_dim d3d9 x Hbuf) as Hspec.
  assert (Hother : exists c, c <> background /\ c <> editor.color_id A).
  { destruct (Z.eq_dec A 1) as [->|HA1].
    - exists (2, 0, 0). split; discriminate.
    - exists (1, 0, 0). split; [discriminate|]. intros Heq. apply HA1.
      rewrite <- HdA, <- Heq. reflexivity. }
  destruct Hother as (c0 & Hc0 & Hc0').
  assert (HposA : key_count A (texels d3d9 x) <> 0%nat).
  { rewrite <- HdA, key_count_texel_count by assumption.
    specialize (Hmaj c0 Hc0 Hc0'). lia. }
  destruct (editor.winning_key d3d9 x) as [k|]; [|now elim HposA].
  destruct Hspec as (Hpos & Hmax & _).
  destruct (Z.eq_dec k A) as [->|Hne]; [reflexivity|exfalso].
  destruct (key_count_pos_texel _ _ Hpos) as (c & Hin & Hcnb & Hck).
  assert (Hcb : byte_color c) by (rewrite Forall_forall in Hbytes; auto).
  assert (Hcne : c <> editor.color_id A) by (intros ->; congruence).
  specialize (Hmaj c Hcnb Hcne). specialize (Hmax A).
  rewrite <- Hck, <- HdA in Hmax.
  rewrite !key_count_texel_count in Hmax by assumption. lia.
Qed.

Section pick_cycle.

Variable view_id_bits : Z.
Variable tex_id_dim : Z.

Local Abbreviation frame_render := (editor.frame_render view_id_bits tex_id_dim).
Local Abbreviation run_frames := (editor.run_frames view_id_bits tex_id_dim).

Lemma run_frames_app (a b : list editor.frame_input) (w : world) :
  run_frames (a ++ b) w
  = (fst (run_frames b (fst (run_frames a w))),
     snd (run_frames a w) ++ snd (run_frames b (fst (run_frames a w)))).
Proof.
  revert w. induction a as [|inp a IH]; intros w.
  - cbn. now destruct (editor.run_frames view_id_bits tex_id_dim b w).
  - cbn [app editor.run_frames]. rewrite IH.
    destruct (editor.run_frames view_id_bits tex_id_dim a (final_world (frame_render inp w))).
    cbn [fst snd]. now rewrite app_assoc.
Qed.

Lemma run_frames_waiting (waits : list editor.frame_input) (w : world) :
  _reading w <> 0 -> Forall (quiet_before (_reading w)) waits ->
  run_frames waits w = (w, []).
Proof.
  intros Hr Hall. induction Hall as [|inp waits [Hm Hf] _ IH]; [reflexivity|].
  cbn [editor.run_frames].
  rewrite (tick_no_click view_id_bits tex_id_dim inp w Hm),
    (readback_waiting view_id_bits inp w Hr Hf).
  unfold final_world, events_of. cbn [fst snd]. rewrite IH. reflexivity.
Qed.

(** The run of a whole pick: the click tick, then the decode of the tick
    that reaches the fence. *)
Lemma pick_cycle_run
    (click due : editor.frame_input) (waits : list editor.frame_input) (w : world) :
  pick_accepted click (selection w) = true ->
  editor.blit_support click = true ->
  editor.read_texture_result click <> 0 ->
  editor.render_frame click < editor.read_texture_result click ->
  Forall (quiet_before (editor.read_texture_result click)) waits ->
  editor.mouse_left_pressed due = false ->
  editor.read_texture_result click <= editor.render_frame due ->
  exists w1 ev1,
    frame_render click w = (Normal tt, w1, ev1)
    /\ selection w1 = selection w /\ _start_readback w1 = false
    /\ emitted_outcomes ev1 = [] /\ count_events is_scan ev1 = 0%nat
    /\ count_events is_fill_pass ev1 = 1%nat /\ count_events is_blit ev1 = 1%nat
    /\ count_events is_warning ev1 = 0%nat
    /\ run_frames (click :: waits ++ [due]) w
       = (final_world (editor.decode due w1), ev1 ++ events_of (editor.decode due w1)).
Proof.
  intros Hacc Hb Hr0 Hlt Hwaits Hm Hdue.
  destruct (tick_accepted view_id_bits tex_id_dim click w Hacc)
    as (c & w1 & ev1 & Heq & Hfill & Hs1 & _ & Hyes).
  destruct (Hyes Hb) as (Hblit & Hwarn & Hr1 & Hrest).
  assert (Hfence : editor.fence_reached (editor.read_texture_result click)
                                         (editor.render_frame click) = false).
  { unfold editor.fence_reached. apply andb_false_iff. right. now apply Z.leb_gt. }
  rewrite Hfence in Hr1, Hrest. destruct Hrest as (-> & Hscan & Hout & Hsel).
  exists w1, ev1. repeat split; try assumption.
  cbn [editor.run_frames]. rewrite Heq. unfold final_world at 1, events_of at 1. cbn [fst snd].
  rewrite run_frames_app.
  rewrite (run_frames_waiting waits w1) by (rewrite Hr1; assumption).
  cbn [fst snd app editor.run_frames].
  rewrite (tick_no_click view_id_bits tex_id_dim due w1 Hm).
  rewrite (readback_due view_id_bits due w1) by (rewrite Hr1; assumption).
  now rewrite app_nil_r.
Qed.

(** X15: a whole pick.  A click is accepted on a platform with blit, the
    read is scheduled for a later frame, any number of ticks without a
    click pass before that frame, then one comes at or after it.  The
    ticks in between do nothing; the run opens one identity-buffer pass,
    blits once and scans the staging array once, on the last tick; its
    only outcomes are those of the decode block on that tick's staging
    array, and it ends idle. *)
Theorem pick_cycle
    (click due : editor.frame_input) (waits : list editor.frame_input) (w : world) :
  pick_accepted click (selection w) = true ->
  editor.blit_support click = true ->
  editor.read_texture_result click <> 0 ->
  editor.render_frame click < editor.read_texture_result click ->
  Forall (quiet_before (editor.read_texture_result click)) waits ->
  editor.mouse_left_pressed due = false ->
  editor.read_texture_result click <= editor.render_frame due ->
  fst (run_frames (click :: waits ++ [due]) w)
  = final_world (editor.decode due (final_world (frame_render click w)))
  /\ emitted_outcomes (snd (run_frames (click :: waits ++ [due]) w))
     = emitted_outcomes (events_of (editor.decode due (final_world (frame_render click w))))
  /\ fst (run_frames (click :: waits) w) = final_world (frame_render click w)
  /\ count_events is_fill_pass (snd (run_frames (click :: waits ++ [due]) w)) = 1%nat
  /\ count_events is_blit (snd (run_frames (click :: waits ++ [due]) w)) = 1%nat
  /\ count_events is_warning (snd (run_frames (click :: waits ++ [due]) w)) = 0%nat
  /\ count_events is_scan (snd (run_frames (click :: waits ++ [due]) w)) = 1%nat
  /\ readback_state (fst (run_frames (click :: waits ++ [due]) w)) = Idle.
Proof.
  intros Hacc Hb Hr0 Hlt Hwaits Hm Hdue.
  destruct (pick_cycle_run click due waits w Hacc Hb Hr0 Hlt Hwaits Hm Hdue)
    as (w1 & ev1 & Heq & Hsel & Hs1 & Hout & Hscan & Hfill & Hblit & Hwarn & Hrun).
  assert (Hwait : fst (run_frames (click :: waits) w) = w1).
  { cbn [editor.run_frames]. rewrite Heq. unfold final_world, events_of. cbn [fst snd].
    assert (Hr1 : _reading w1 = editor.read_texture_result click).
    { destruct (tick_accepted view_id_bits tex_id_dim click w Hacc)
        as (c' & w1' & ev1' & Heq' & _ & _ & _ & Hyes).
      rewrite Heq in Heq'. injection Heq' as <- <- <-.
      destruct (Hyes Hb) as (_ & _ & Hr1 & _).
      replace (editor.fence_reached _ _) with false in Hr1; [exact Hr1|].
      symmetry. unfold editor.fence_reached. apply andb_false_iff. right. now apply Z.leb_gt. }
    rewrite (run_frames_waiting waits w1) by (rewrite Hr1; assumption). reflexivity. }
  rewrite Hwait, Hrun, Heq. unfold final_world, events_of. cbn [fst snd].
  destruct (decode_spec due w1) as (w3 & ev3 & Heq3 & Hr3 & Hs3 & Hf3 & Hb3 & Hw3 & Hsc3).
  rewrite Heq3. cbn [fst snd].
  rewrite emitted_outcomes_app, !count_events_app, Hout, Hscan, Hfill, Hblit, Hwarn,
    Hf3, Hb3, Hw3, Hsc3.
  repeat split.
  apply readback_state_idle. split; congruence.
Qed.

(** X16: a whole pick of a live entity.  In the run of X15, when on the
    last tick the colour of a live entity index [A] fills strictly more
    texels of the [tex_id_dim] x [tex_id_dim] staging array than any other
    non-background colour, the run emits exactly Select [A], [A] is the
    selected object at the end, and the machine is idle again. *)
Theorem pick_cycle_selects_majority
    (click due : editor.frame_input) (waits : list editor.frame_input) (w : world) (A : Z) :
  pick_accepted click (selection w) = true ->
  editor.blit_support click = true ->
  editor.read_texture_result click <> 0 ->
  editor.render_frame click < editor.read_texture_result click ->
  Forall (quiet_before (editor.read_texture_result click)) waits ->
  editor.mouse_left_pressed due = false ->
  editor.read_texture_result click <= editor.render_frame due ->
  id_buffer tex_id_dim (editor.blit_data due) ->
  0 <= A < 2 ^ 24 ->
  editor.color_id A <> background ->
  editor.ecs_valid_index due A = true ->
  editor.ecs_get_valid due A = true ->
  (forall c, c <> background -> c <> editor.color_id A ->
     (texel_count c (texels (editor.renderer_is_d3d9 due) (editor.blit_data due))
      < texel_count (editor.color_id A)
          (texels (editor.renderer_is_d3d9 due) (editor.blit_data due)))%nat) ->
  emitted_outcomes (snd (run_frames (click :: waits ++ [due]) w)) = [Select A]
  /\ selection (fst (run_frames (click :: waits ++ [due]) w)) = Some A
  /\ readback_state (fst (run_frames (click :: waits ++ [due]) w)) = Idle.
Proof.
  intros Hacc Hb Hr0 Hlt Hwaits Hm Hdue Hbuf HA Hnb Hv Hg Hmaj.
  destruct (pick_cycle_run click due waits w Hacc Hb Hr0 Hlt Hwaits Hm Hdue)
    as (w1 & ev1 & Heq & Hsel & Hs1 & Hout & _ & _ & _ & _ & Hrun).
  rewrite Hrun. cbn [fst snd].
  rewrite decode_eq, (majority_winning_key tex_id_dim A _ _ Hbuf HA Hnb Hmaj), Hv, Hg.
  unfold final_world, events_of. cbn [fst snd andb].
  rewrite emitted_outcomes_app, Hout. repeat split.
  apply readback_state_idle. split; [reflexivity|exact Hs1].
Qed.

End pick_cycle.

Lemma pick_cycle_witness :
  fst (editor.run_frames 16 2 (click_at_frame_10 :: [quiet_tick 11; quiet_tick 12] ++ [due_at_frame_20])
         initial_world)
  = final_world (editor.decode due_at_frame_20
                   (final_world (editor.frame_render 16 2 click_at_frame_10 initial_world)))
  /\ emitted_outcomes
       (snd (editor.run_frames 16 2
               (click_at_frame_10 :: [quiet_tick 11; quiet_tick 12] ++ [due_at_frame_20])
               initial_world))
     = emitted_outcomes
         (events_of (editor.decode due_at_frame_20
                       (final_world (editor.frame_render 16 2 click_at_frame_10 initial_world))))
  /\ fst (editor.run_frames 16 2 (click_at_frame_10 :: [quiet_tick 11; quiet_tick 12])
            initial_world)
     = final_world (editor.frame_render 16 2 click_at_frame_10 initial_world)
  /\ count_events is_fill_pass
       (snd (editor.run_frames 16 2
               (click_at_frame_10 :: [quiet_tick 11; quiet_tick 12] ++ [due_at_frame_20])
               initial_world)) = 1%nat
  /\ count_events is_blit
       (snd (editor.run_frames 16 2
               (click_at_frame_10 :: [quiet_tick 11; quiet_tick 12] ++ [due_at_frame_20])
               initial_world)) = 1%nat
  /\ count_events is_warning
       (snd (editor.run_frames 16 2
               (click_at_frame_10 :: [quiet_tick 11; quiet_tick 12] ++ [due_at_frame_20])
               initial_world)) = 0%nat
  /\ count_events is_scan
       (snd (editor.run_frames 16 2
               (click_at_frame_10 :: [quiet_tick 11; quiet_tick 12] ++ [due_at_frame_20])
               initial_world)) = 1%nat
  /\ readback_state
       (fst (editor.run_frames 16 2
               (click_at_frame_10 :: [quiet_tick 11; quiet_tick 12] ++ [due_at_frame_20])
               initial_world)) = Idle.
Proof.
  apply (pick_cycle 16 2 click_at_frame_10 due_at_frame_20 [quiet_tick 11; quiet_tick 12]
           initial_world).
  - reflexivity.
  - reflexivity.
  - discriminate.
  - reflexivity.
  - repeat constructor.
  - reflexivity.
  - vm_compute. discriminate.
Defined.

Lemma pick_cycle_selects_witness :
  emitted_outcomes
    (snd (editor.run_frames 16 2
            (click_at_frame_10 :: [quiet_tick 11; quiet_tick 12] ++ [due_at_frame_20])
            initial_world)) = [Select 5]
  /\ selection
       (fst (editor.run_frames 16 2
               (click_at_frame_10 :: [quiet_tick 11; quiet_tick 12] ++ [due_at_frame_20])
               initial_world)) = Some 5
  /\ readback_state
       (fst (editor.run_frames 16 2
               (click_at_frame_10 :: [quiet_tick 11; quiet_tick 12] ++ [due_at_frame_20])
               initial_world)) = Idle.
Proof.
  apply (pick_cycle_selects_majority 16 2 click_at_frame_10 due_at_frame_20
           [quiet_tick 11; quiet_tick 12] initial_world 5).
  - reflexivity.
  - reflexivity.
  - discriminate.
  - reflexivity.
  - repeat constructor.
  - reflexivity.
  - vm_compute. discriminate.
  - vm_compute. repeat split; congruence.
  - vm_compute. split; congruence.
  - vm_compute. congruence.
  - reflexivity.
  - reflexivity.
  - apply strict_majorityb_sound. reflexivity.
Defined.

(** ** The calls of a tick with an accepted click *)

Section tick_calls.

Variable view_id_bits : Z.
Variable tex_id_dim : Z.
Hypothesis view_id_wide : 8 <= view_id_bits.

Lemma render_pass_eq (n : string) (w : world) :
  gfx.render_pass view_id_bits n w
  = (Normal (next_slot w), final_world (gfx.generate_id view_id_bits w),
     flush_calls w ++ [EvSetViewName (next_slot w) n]).
Proof.
  unfold gfx.render_pass. unfold bind at 1. rewrite generate_id_eq.
  unfold next_slot, flush_calls, final_world.
  destruct (s_index w =? 255); reflexivity.
Qed.

Lemma generate_id_next (w : world) :
  0 <= s_index w <= 255 ->
  s_index (final_world (gfx.generate_id view_id_bits w)) = next_slot w + 1
  /\ s_last_index (final_world (gfx.generate_id view_id_bits w)) = next_slot w
  /\ 0 <= next_slot w <= 254.
Proof.
  intros Hs. rewrite generate_id_eq. unfold next_slot, final_world.
  destruct w as [si sl r sr sel]. cbn [s_index] in *.
  destruct (si =? 255) eqn:E; cbn [fst snd set_s_last_index set_s_index s_index s_last_index].
  - rewrite (wrap_small view_id_bits view_id_wide) by lia. repeat split; lia.
  - apply Z.eqb_neq in E.
    rewrite (wrap_small view_id_bits view_id_wide) by lia. repeat split; lia.
Qed.

Lemma pick_request_calls (inp : editor.frame_input) (w : world) :
  pick_guards inp (selection w) = true ->
  editor.pick_request view_id_bits tex_id_dim inp w
  = (Normal tt,
     final_world (gfx.generate_id view_id_bits (set_start_readback true (set_reading 0 w))),
     flush_calls w ++ fill_pass_calls tex_id_dim (next_slot w) (editor.entities inp)).
Proof.
  unfold pick_guards, editor.pick_request. intros Hg. rewrite bind_gets.
  destruct (editor.imguizmo_is_over inp && _); [discriminate|].
  destruct (editor.editor_camera_valid inp); [|discriminate].
  destruct (editor.has_camera_component inp); [|discriminate].
  destruct (editor.near_unproject_ok inp); [|discriminate].
  destruct (editor.far_unproject_ok inp); [|discriminate].
  cbn [negb orb]. rewrite !bind_modify.
  unfold bind at 1. rewrite render_pass_eq.
  change (next_slot (set_start_readback true (set_reading 0 w))) with (next_slot w).
  change (flush_calls (set_start_readback true (set_reading 0 w))) with (flush_calls w).
  unfold bind at 1.
  replace (gfx.bind_fb (next_slot w) (Some (tex_id_dim, tex_id_dim))
             (final_world (gfx.generate_id view_id_bits
                (set_start_readback true (set_reading 0 w)))))
    with (Normal tt,
          final_world (gfx.generate_id view_id_bits (set_start_readback true (set_reading 0 w))),
          [EvSetViewRect (next_slot w) (wrap16 tex_id_dim) (wrap16 tex_id_dim);
           EvSetViewScissor (next_slot w) (wrap16 tex_id_dim) (wrap16 tex_id_dim);
           EvSetViewFrameBuffer (next_slot w); EvTouch (next_slot w)]) by reflexivity.
  unfold bind at 1; unfold gfx.clear, emit at 1.
  unfold bind at 1; unfold gfx.set_view_proj, emit at 1.
  rewrite for_each_draw_entity. unfold fill_pass_calls.
  rewrite <- !app_assoc. reflexivity.
Qed.

Lemma start_readback_calls (inp : editor.frame_input) (w : world) :
  editor.blit_support inp = true ->
  editor.start_readback view_id_bits inp w
  = (Normal tt,
     set_start_readback false
       (set_reading (editor.read_texture_result inp)
          (final_world (gfx.generate_id view_id_bits w))),
     flush_calls w ++ blit_pass_calls (next_slot w)).
Proof.
  unfold editor.start_readback. intros ->. cbn [negb].
  unfold bind at 1. rewrite render_pass_eq. unfold blit_pass_calls.
  cbv beta iota delta [bind emit modify]. rewrite <- !app_assoc. reflexivity.
Qed.

(** X17: the calls of a tick with an accepted click on a platform with
    blit, the read scheduled for a later frame.  The identity-buffer pass
    takes the next slot [f]; it is named, given the identity surface as
    rectangle, scissor and frame buffer, touched, cleared to opaque black
    with depth, given the pick transforms, and then receives the draws -
    also when no entity is drawn.  The blit pass takes the slot after it,
    a different one; when [f] is 254 that costs a frame flush between the
    draws and the blit.  Nothing else is called. *)
Theorem accepted_click_calls (inp : editor.frame_input) (w : world) :
  0 <= s_index w <= 255 ->
  pick_accepted inp (selection w) = true ->
  editor.blit_support inp = true ->
  editor.fence_reached (editor.read_texture_result inp) (editor.render_frame inp) = false ->
  events_of (editor.frame_render view_id_bits tex_id_dim inp w)
  = flush_calls w
    ++ fill_pass_calls tex_id_dim (next_slot w) (editor.entities inp)
    ++ (if next_slot w =? 254 then [EvFrame] else [])
    ++ blit_pass_calls (if next_slot w =? 254 then 0 else next_slot w + 1)
  /\ next_slot w <> (if next_slot w =? 254 then 0 else next_slot w + 1)
  /\ 0 <= next_slot w <= 254
  /\ s_last_index (final_world (editor.frame_render view_id_bits tex_id_dim inp w))
     = (if next_slot w =? 254 then 0 else next_slot w + 1)
  /\ _reading (final_world (editor.frame_render view_id_bits tex_id_dim inp w))
     = editor.read_texture_result inp.
Proof.
  intros Hs Hacc Hb Hfence. apply pick_accepted_split in Hacc as [Hm Hg].
  rewrite frame_render_blocks, Hm. cbn [when].
  rewrite (pick_request_calls inp w Hg).
  set (w1 := final_world (gfx.generate_id view_id_bits
                            (set_start_readback true (set_reading 0 w)))).
  assert (H1 : s_index w1 = next_slot w + 1 /\ 0 <= next_slot w <= 254
               /\ _reading w1 = 0 /\ _start_readback w1 = true).
  { destruct (generate_id_next (set_start_readback true (set_reading 0 w)) Hs)
      as (E1 & _ & E3).
    repeat split; try apply E1; try apply E3.
    - subst w1. rewrite generate_id_eq. unfold final_world.
      destruct (_ =? 255); reflexivity.
    - subst w1. rewrite generate_id_eq. unfold final_world.
      destruct (_ =? 255); reflexivity. }
  destruct H1 as (Hs1 & Hslot & Hr1 & Hst1).
  rewrite readback_blocks, Hr1, Hst1. cbn [Z.eqb andb when].
  rewrite (start_readback_calls inp w1 Hb).
  assert (Hr2 : _reading (set_start_readback false
                   (set_reading (editor.read_texture_result inp)
                      (final_world (gfx.generate_id view_id_bits w1))))
                = editor.read_texture_result inp) by reflexivity.
  rewrite Hr2, Hfence. cbn [when ret].
  unfold events_of, final_world at 1 2. cbn [fst snd].
  assert (Hn1 : next_slot w1 = if next_slot w =? 254 then 0 else next_slot w + 1).
  { unfold next_slot at 1. rewrite Hs1.
    destruct (next_slot w =? 254) eqn:E.
    - apply Z.eqb_eq in E. rewrite E. reflexivity.
    - apply Z.eqb_neq in E.
      replace (next_slot w + 1 =? 255) with false by (symmetry; apply Z.eqb_neq; lia).
      reflexivity. }
  assert (Hf1 : flush_calls w1 = if next_slot w =? 254 then [EvFrame] else []).
  { unfold flush_calls. rewrite Hs1.
    destruct (next_slot w =? 254) eqn:E.
    - apply Z.eqb_eq in E. rewrite E. reflexivity.
    - apply Z.eqb_neq in E.
      replace (next_slot w + 1 =? 255) with false by (symmetry; apply Z.eqb_neq; lia).
      reflexivity. }
  assert (Hs1' : 0 <= s_index w1 <= 255) by lia.
  destruct (generate_id_next w1 Hs1') as (_ & El & _).
  rewrite app_nil_r, Hn1, Hf1, <- !app_assoc.
  split; [reflexivity|]. split.
  - destruct (next_slot w =? 254) eqn:E; [apply Z.eqb_eq in E|]; lia.
  - split; [assumption|]. split; [|reflexivity].
    change (s_last_index (final_world (gfx.generate_id view_id_bits w1))
            = (if next_slot w =? 254 then 0 else next_slot w + 1)).
    rewrite El. exact Hn1.
Qed.

End tick_calls.

Lemma accepted_click_calls_witness :
  events_of (editor.frame_render 16 1 click_at_frame_10 last_slot_next)
  = flush_calls last_slot_next
    ++ fill_pass_calls 1 (next_slot last_slot_next) (editor.entities click_at_frame_10)
    ++ (if next_slot last_slot_next =? 254 then [EvFrame] else [])
    ++ blit_pass_calls (if next_slot last_slot_next =? 254 then 0
                        else next_slot last_slot_next + 1)
  /\ next_slot last_slot_next
     <> (if next_slot last_slot_next =? 254 then 0 else next_slot last_slot_next + 1)
  /\ 0 <= next_slot last_slot_next <= 254
  /\ s_last_index (final_world (editor.frame_render 16 1 click_at_frame_10 last_slot_next))
     = (if next_slot last_slot_next =? 254 then 0 else next_slot last_slot_next + 1)
  /\ _reading (final_world (editor.frame_render 16 1 click_at_frame_10 last_slot_next))
     = editor.read_texture_result click_at_frame_10.
Proof.
  apply (accepted_click_calls 16 1).
  - lia.
  - cbn. lia.
  - reflexivity.
  - reflexivity.
  - reflexivity.
Defined.

(** ** Bounds of the histogram *)

(** X18: in the histogram of a [tex_id_dim] x [tex_id_dim] staging array
    every key lies in [1, 2^24 - 1], every stored count is at least 1 and
    at most [max_amount], and [max_amount] is at most the number of
    texels, [tex_id_dim] squared; the 32-bit counters never wrap. *)
Theorem histogram_bounds
    (tex_id_dim : Z) (d3d9 : bool) (x : list Byte.byte) (k v : Z) :
  id_buffer tex_id_dim x ->
  In (k, v) (fst (editor.scan d3d9 x ([], 0))) ->
  1 <= k < 2 ^ 24
  /\ 1 <= v <= snd (editor.scan d3d9 x ([], 0))
  /\ snd (editor.scan d3d9 x ([], 0)) <= tex_id_dim * tex_id_dim
  /\ tex_id_dim * tex_id_dim < 2 ^ 32.
Proof.
  intros Hbuf Hin.
  destruct (scan_hist_ok tex_id_dim d3d9 x Hbuf) as (Hasc & Hfind & Hmax & Hwit).
  destruct Hbuf as (Hd & Hint & Hlen).
  pose proof (texels_length d3d9 x) as Hl.
  pose proof (texels_byte_color d3d9 x) as Hb. rewrite Forall_forall in Hb.
  pose proof (In_map_find _ _ _ Hasc Hin) as Hk. rewrite Hfind in Hk.
  destruct (key_count k (texels d3d9 x) =? 0)%nat eqn:E; [discriminate|].
  apply Nat.eqb_neq in E. injection Hk as Hk.
  destruct (key_count_pos_texel _ _ E) as (c & Hc & Hnb & Hck).
  specialize (Hb c Hc). destruct c as [[rr gg] bb]. cbn in Hb.
  assert (Hnz : rr <> 0 \/ gg <> 0 \/ bb <> 0).
  { destruct (Z.eq_dec rr 0), (Z.eq_dec gg 0), (Z.eq_dec bb 0); subst; auto. }
  unfold decode_color in Hck. rewrite hash_key_bytes in Hck by lia.
  change (2 ^ 24) with 16777216. change (2 ^ 32) with 4294967296.
  assert (Hbound : snd (editor.scan d3d9 x ([], 0)) <= tex_id_dim * tex_id_dim).
  { destruct Hwit as [->|[k' <-]]; [nia|].
    pose proof (key_count_le_length k' (texels d3d9 x)). lia. }
  specialize (Hmax k). repeat split; try lia.
Qed.

Lemma histogram_bounds_witness :
  1 <= 5 < 2 ^ 24
  /\ 1 <= 2 <= snd (editor.scan true tied_data ([], 0))
  /\ snd (editor.scan true tied_data ([], 0)) <= 2 * 2
  /\ 2 * 2 < 2 ^ 32.
Proof.
  apply (histogram_bounds 2 true tied_data 5 2).
  - vm_compute. repeat split; congruence.
  - vm_compute. now left.
Defined.
